(** * surgeon: dataset helpers and kernel utilities

    A shallow embedding of [surgeon/utils.py] (label encoding, train/test
    split, dictionary construction, cross-batch selection of highly variable
    genes) and of [surgeon/models/_utils.py] (kernels, maximum mean
    discrepancy, the reparameterisation sampler), with the properties the
    specification states about them.

    Conventions.
    - Python integers are [Z]; positions in a list are [nat].
    - A Python [dict] with string keys is a [gmap string _]: keys are unique,
      as in Python.
    - Dispersions, which the code only compares, are rationals [Q]; a
      missing one (NaN) is [None].
    - The training fraction is a double: the product with the number of rows
      is rounded as IEEE 754 rounds it ([PrimFloat]).
    - A label array of type [float64] holds integers: a code written into it
      is rounded to the nearest double.
    - Tensor entries are real numbers [R] and arithmetic on them is exact;
      a mean over no entry is NaN ([scalar]). Rounding, underflow and the NaN
      of a quotient by zero inside a kernel are not modelled: the statements
      about kernels say where they apply.
    - The two process-wide random generators are explicit arguments.
    - Annotated matrices live in a store and are passed by reference where
      the code mutates them in place. *)

From Stdlib Require Import ZArith QArith Qround Reals Lra Lia.
From Stdlib Require Import String.
From Stdlib Require Import Floats.
From stdpp Require Import base option list sorting gmap strings.

Local Open Scope Z_scope.

(** ** Outcomes of a call *)

(** A Python call returns a value, raises, or (for the one unbounded loop of
    the repository) is still running when the fuel is spent. *)
Inductive exn : Type :=
  | KeyError (key : string)
  | IndexError
  | ValueError
  | TypeError
  | OverflowError
  | AttributeError.

Inductive outcome (A : Type) : Type :=
  | Returned (a : A)
  | Raised (e : exn)
  | StillRunning.
Arguments Returned {A} a.
Arguments Raised {A} e.
Arguments StillRunning {A}.

#[global] Instance outcome_ret : MRet outcome := fun A a => Returned a.
#[global] Instance outcome_bind : MBind outcome := fun A B k m =>
  match m with
  | Returned a => k a
  | Raised e => Raised e
  | StillRunning => StillRunning
  end.

#[global] Instance outcome_fmap : FMap outcome := fun A B f m =>
  match m with
  | Returned a => Returned (f a)
  | Raised e => Raised e
  | StillRunning => StillRunning
  end.

(** [l[:k]] and [l[k:]] for any integer [k]: a negative [k] counts from the
    end, and both clamp to the bounds. *)
Definition slice_bound {A} (l : list A) (k : Z) : nat :=
  if k <? 0 then Z.to_nat (Z.of_nat (length l) + k) else Z.to_nat k.
Definition slice_to {A} (l : list A) (k : Z) : list A := take (slice_bound l k) l.
Definition slice_from {A} (l : list A) (k : Z) : list A := drop (slice_bound l k) l.

(** [enumerate(l)] *)
Definition enumerate {A} (l : list A) : list (Z * A) :=
  imap (fun i a => (Z.of_nat i, a)) l.

(** ** create_dictionary *)

(** [target_conditions] is a list, or any other value, which the code wraps
    into a one-element list. *)
Inductive target_arg : Type :=
  | OneTarget (c : string)
  | TargetList (cs : list string).

Definition create_dictionary (conditions : list string) (target_conditions : target_arg)
    : gmap string Z :=
  let target_conditions :=
    match target_conditions with
    | TargetList cs => cs
    | OneTarget c => [c]
    end in
  let dictionary : gmap string Z := ∅ in
  let conditions := filter (fun e => e ∉ target_conditions) conditions in
  foldl (fun dictionary '(idx, condition) => <[condition := idx]> dictionary)
        dictionary (enumerate conditions).

(** ** Annotated matrices *)

(** A per-cell column of [adata.obs]: the value of every cell, and the
    categories of the column ([.cat.categories]). *)
Record obs_column : Type := ObsColumn {
  values : list string;
  categories : list string }.

(** A per-gene column of [adata.var]. A float may be missing (NaN). *)
Inductive var_column : Type :=
  | FloatColumn (xs : list (option Q))
  | IntColumn (ns : list Z)
  | BoolColumn (bs : list bool).

(** The annotated matrix: cells by genes, with the metadata of both axes. *)
Record AnnData : Type := mkAnnData {
  X : list (list Q);
  obs : gmap string obs_column;
  var_names : list string;
  var : gmap string var_column }.

(** [adata.shape[0]] and [adata.shape[1]] *)
Definition n_obs (adata : AnnData) : nat := length (X adata).
Definition n_vars (adata : AnnData) : nat := length (var_names adata).

(** [adata.obs[key]] *)
Definition obs_get (adata : AnnData) (key : string) : outcome obs_column :=
  match obs adata !! key with
  | Some col => Returned col
  | None => Raised (KeyError key)
  end.

(** [adata[idx, :]]: the rows at the positions [idx], in that order. A
    per-cell column of the subset keeps only the categories that its rows
    use. *)
Definition take_rows {A} (rows : list A) (idx : list nat) : list A :=
  omap (fun i => rows !! i) idx.

Definition subset_column (idx : list nat) (col : obs_column) : obs_column :=
  let values := take_rows (values col) idx in
  {| values := values;
     categories := filter (fun c => c ∈ values) (categories col) |}.

Definition subset_rows (adata : AnnData) (idx : list nat) : outcome AnnData :=
  if decide (Forall (fun i => (i < n_obs adata)%nat) idx) then
    Returned {| X := take_rows (X adata) idx;
                obs := subset_column idx <$> obs adata;
                var_names := var_names adata;
                var := var adata |}
  else Raised IndexError.

(** ** label_encoder *)

(** [sklearn.preprocessing.LabelEncoder]: the sorted distinct labels seen by
    [fit]; [transform] maps a label to its position and raises on a label
    that was not seen. *)
Record LabelEncoder : Type := { classes_ : list string }.

Definition string_le (a b : string) : Prop := String.leb a b = true.
#[global] Instance string_le_dec a b : Decision (string_le a b).
Proof. unfold string_le. apply _. Defined.

Definition LabelEncoder_fit (y : list string) : LabelEncoder :=
  {| classes_ := merge_sort string_le (remove_dups y) |}.

Fixpoint index_of (c : string) (classes : list string) : option nat :=
  match classes with
  | [] => None
  | c' :: rest => if decide (c = c') then Some O else S <$> index_of c rest
  end.

Definition LabelEncoder_transform (le : LabelEncoder) (y : list string) : outcome (list Z) :=
  match mapM (fun c => index_of c (classes_ le)) y with
  | Some codes => Returned (Z.of_nat <$> codes)
  | None => Raised ValueError
  end.

(** The second argument of [label_encoder]: a [dict], a fitted
    [LabelEncoder], or anything else (such as [None]). *)
Inductive encoder_arg : Type :=
  | DictEncoder (d : gmap string Z)
  | FittedEncoder (le : LabelEncoder)
  | NoEncoder.

(** The value that a [float64] array stores for a Python integer: the
    nearest double, ties to even, which is again an integer. Integers up to
    [2^53] in absolute value are stored as they are; Python raises when the
    integer is too large for a double. *)
Definition float64_of_int (z : Z) : outcome Z :=
  let a := Z.abs z in
  if a <=? 2 ^ 53 then Returned z
  else
    let e := Z.log2 a - 52 in
    let m := a / 2 ^ e in
    let r := a mod 2 ^ e in
    let half := 2 ^ (e - 1) in
    let m := if (half <? r) || ((r =? half) && Z.odd m) then m + 1 else m in
    let v := m * 2 ^ e in
    if 2 ^ 1024 <=? v then Raised OverflowError else Returned (Z.sgn z * v).

(** [labels[mask] = label] on the [float64] array [labels]; the mask must be
    as long as the array, and the value is converted to the type of the
    array whatever the mask selects. *)
Definition assign_where (labels : list Z) (mask : list bool) (label : Z) : outcome (list Z) :=
  if decide (length mask = length labels) then
    label ← float64_of_int label;
    Returned (zip_with (fun (m : bool) old => if m then label else old) mask labels)
  else Raised IndexError.

(** The loop over [label_encoder.items()]. Python visits the items in
    insertion order; the keys of a [dict] are distinct, so every row is
    written by at most one item and the order does not matter. *)
Fixpoint encode_items (adata : AnnData) (condition_key : string)
    (items : list (string * Z)) (labels : list Z) : outcome (list Z) :=
  match items with
  | [] => Returned labels
  | (condition, label) :: rest =>
      col ← obs_get adata condition_key;
      labels ← assign_where labels ((fun v => bool_decide (v = condition)) <$> values col) label;
      encode_items adata condition_key rest labels
  end.

(** [labels.reshape(-1, 1)] *)
Definition reshape_column (labels : list Z) : list (list Z) := (fun l => [l]) <$> labels.

Definition label_encoder (adata : AnnData) (label_encoder : encoder_arg)
    (condition_key : string) : outcome (list (list Z) * encoder_arg) :=
  let labels := replicate (n_obs adata) 0 in
  match label_encoder with
  | DictEncoder d =>
      labels ← encode_items adata condition_key (map_to_list d) labels;
      Returned (reshape_column labels, DictEncoder d)
  | FittedEncoder le =>
      col ← obs_get adata condition_key;
      labels ← LabelEncoder_transform le (values col);
      Returned (reshape_column labels, FittedEncoder le)
  | NoEncoder =>
      col ← obs_get adata condition_key;
      let le := LabelEncoder_fit (values col) in
      labels ← LabelEncoder_transform le (values col);
      Returned (reshape_column labels, FittedEncoder le)
  end.

(** ** train_test_split *)

(** The state of [np.random]: a sequence of raw draws and how many of them
    have been consumed. [random_interval rs max] is uniform on [0..max]. *)
Record RandomState : Type := {
  draws : nat -> nat;
  consumed : nat }.

Definition random_interval (rs : RandomState) (max : nat) : nat * RandomState :=
  ((draws rs (consumed rs) mod (S max))%nat,
   {| draws := draws rs; consumed := S (consumed rs) |}).

(** [x[i], x[j] = x[j], x[i]] *)
Definition swap {A} (x : list A) (i j : nat) : list A :=
  match x !! i, x !! j with
  | Some a, Some b => <[j := a]> (<[i := b]> x)
  | _, _ => x
  end.

(** [np.random.shuffle(x)]: for [i] from [len(x) - 1] down to [1], exchange
    [x[i]] with [x[j]] for a random [j] in [0..i]. *)
Fixpoint shuffle_from {A} (i : nat) (rs : RandomState) (x : list A) : list A * RandomState :=
  match i with
  | O => (x, rs)
  | S i' =>
      let (j, rs) := random_interval rs i in
      shuffle_from i' rs (swap x i j)
  end.

Definition shuffle {A} (rs : RandomState) (x : list A) : list A * RandomState :=
  shuffle_from (length x - 1) rs x.

(** [float(n)] for a number of rows (fewer than [2^63]). *)
Definition float_of_nat (n : nat) : float :=
  PrimFloat.of_uint63 (Uint63.of_Z (Z.of_nat n)).

(** [int(x)] for a double [x]: truncation towards zero; infinities and NaN
    have no integer. *)
Definition py_int (x : float) : outcome Z :=
  match Prim2SF x with
  | S754_zero _ => Returned 0
  | S754_infinity _ => Raised OverflowError
  | S754_nan => Raised ValueError
  | S754_finite s m e =>
      let v := if 0 <=? e then Z.pos m * 2 ^ e else Z.pos m / 2 ^ (- e) in
      Returned (if s then - v else v)
  end.

Definition train_test_split (rs : RandomState) (adata : AnnData) (train_frac : float)
    : outcome (AnnData * AnnData) * RandomState :=
  match py_int (float_of_nat (n_obs adata) * train_frac)%float with
  | Returned train_size =>
      let indices := seq 0 (n_obs adata) in
      let (indices, rs) := shuffle rs indices in
      let train_idx := slice_to indices train_size in
      let test_idx := slice_from indices train_size in
      (train_data ← subset_rows adata train_idx;
       valid_data ← subset_rows adata test_idx;
       Returned (train_data, valid_data), rs)
  | Raised e => (Raised e, rs)
  | StillRunning => (StillRunning, rs)
  end.

(** ** hvg_batch *)

(** One row of the per-gene table [adata.var] after the statistics have been
    computed: the gene (the index), its normalised dispersion and the number
    of batches in which it is flagged highly variable. *)
Record gene_row : Type := GeneRow {
  gene : string;
  dispersions_norm : option Q;
  highly_variable_nbatches : Z }.

(** A pandas [Series] of dispersions indexed by gene. *)
Abbreviation Series := (list (string * option Q)).

Definition index (s : Series) : list string := s.*1.

(** [var['dispersions_norm'][mask]], the mask being a condition on
    [var.highly_variable_nbatches]. *)
Definition dispersions_where (P : Z -> Prop) `{!forall n, Decision (P n)}
    (table : list gene_row) : Series :=
  (fun r => (gene r, dispersions_norm r)) <$>
  filter (fun r => P (highly_variable_nbatches r)) table.

(** Descending order of dispersions, NaN last. *)
Definition dispersion_geb (a b : option Q) : bool :=
  match a, b with
  | _, None => true
  | None, Some _ => false
  | Some x, Some y => Qle_bool y x
  end.

Definition comes_before (p q : string * option Q) : Prop :=
  dispersion_geb p.2 q.2 = true.
#[global] Instance comes_before_dec p q : Decision (comes_before p q).
Proof. unfold comes_before. apply _. Defined.

(** [s.sort_values(ascending=False, inplace=True)]: a sorted permutation,
    NaN last. The order that pandas gives to equal dispersions (and to NaN)
    is that of its sorting algorithm and is not modelled: the order of
    [merge_sort] stands for it, and is another one. The statements about the
    selection hold for every order of equal dispersions. *)
Definition sort_values (s : Series) : Series := merge_sort comes_before s.

(** The variables of the fill-up loop. *)
Record fill_state : Type := FillState {
  hvg : list string;
  not_n_batches : Z;
  enough : bool }.

(** The body of [while not enough]. *)
Definition fill_step (table : list gene_row) (n_batches target_genes : Z)
    (st : fill_state) : fill_state :=
  let target_genes_diff := target_genes - Z.of_nat (length (hvg st)) in
  let tmp_dispersions :=
    dispersions_where (fun n => n = n_batches - not_n_batches st) table in
  if Z.of_nat (length tmp_dispersions) <? target_genes_diff then
    {| hvg := hvg st ++ index tmp_dispersions;
       not_n_batches := not_n_batches st + 1;
       enough := false |}
  else
    let tmp_dispersions := sort_values tmp_dispersions in
    {| hvg := hvg st ++ slice_to (index tmp_dispersions) target_genes_diff;
       not_n_batches := not_n_batches st;
       enough := true |}.

(** [while not enough: ...], at most [fuel] iterations. *)
Fixpoint fill_up (fuel : nat) (table : list gene_row) (n_batches target_genes : Z)
    (st : fill_state) : outcome fill_state :=
  if enough st then Returned st
  else match fuel with
       | O => StillRunning
       | S fuel => fill_up fuel table n_batches target_genes
                     (fill_step table n_batches target_genes st)
       end.

(** The selection of [hvg_batch], from the line that builds
    [nbatch1_dispersions] to the end of the loop. *)
Definition select_hvg (fuel : nat) (table : list gene_row) (n_batches target_genes : Z)
    : outcome (list string) :=
  let nbatch1_dispersions := dispersions_where (fun n => n > n_batches - 1) table in
  let nbatch1_dispersions := sort_values nbatch1_dispersions in
  if target_genes <? Z.of_nat (length nbatch1_dispersions) then
    Returned (slice_to (index nbatch1_dispersions) target_genes)
  else
    st ← fill_up fuel table n_batches target_genes
           {| hvg := index nbatch1_dispersions; not_n_batches := 1; enough := false |};
    Returned (hvg st).

(** The rows of [adata.var] that the selection reads. *)
Fixpoint zip_rows (names : list string) (ds : list (option Q)) (ns : list Z) : list gene_row :=
  match names, ds, ns with
  | g :: names, d :: ds, n :: ns => GeneRow g d n :: zip_rows names ds ns
  | _, _, _ => []
  end.

Definition var_table (adata : AnnData) : outcome (list gene_row) :=
  match var adata !! "dispersions_norm"%string with
  | Some (FloatColumn ds) =>
      match var adata !! "highly_variable_nbatches"%string with
      | Some (IntColumn ns) => Returned (zip_rows (var_names adata) ds ns)
      | Some _ => Raised TypeError
      | None => Raised (KeyError "highly_variable_nbatches")
      end
  | Some _ => Raised TypeError
  | None => Raised (KeyError "dispersions_norm")
  end.

(** [adata[:, names]]: the columns of the named genes, in that order. *)
Definition subset_var_column (idx : list nat) (c : var_column) : var_column :=
  match c with
  | FloatColumn xs => FloatColumn (take_rows xs idx)
  | IntColumn ns => IntColumn (take_rows ns idx)
  | BoolColumn bs => BoolColumn (take_rows bs idx)
  end.

Definition subset_vars (adata : AnnData) (names : list string) : outcome AnnData :=
  match mapM (fun g => index_of g (var_names adata)) names with
  | Some idx =>
      Returned {| X := (fun row => take_rows row idx) <$> X adata;
                  obs := obs adata;
                  var_names := names;
                  var := subset_var_column idx <$> var adata |}
  | None => Raised (KeyError "var_names")
  end.

(** Objects are held in a store and named by references, so that a function
    given a reference can change the object its caller still holds. *)
Abbreviation ref := positive.
Abbreviation store := (gmap positive AnnData).

(** [obj.copy()]: a new object with the same content. *)
Definition copy (σ : store) (a : AnnData) : ref * store :=
  let r := fresh (dom σ) in (r, <[r := a]> σ).

Inductive hvg_result : Type :=
  | GeneList (genes : list string)
  | Subset (adata : ref).

Section hvg_batch.

(** [sc.pp.highly_variable_genes(adata, flavor, n_top_genes, n_bins,
    batch_key)] belongs to scanpy. It computes per-gene columns from the
    matrix and writes them into [adata.var] in place; the columns it
    computes are a parameter here. *)
Variable highly_variable_genes :
  AnnData -> string -> Z -> Z -> string -> gmap string var_column.

Definition sc_pp_highly_variable_genes (σ : store) (adata : ref)
    (flavor : string) (n_top_genes n_bins : Z) (batch_key : string) : store :=
  match σ !! adata with
  | Some a =>
      <[adata := {| X := X a; obs := obs a; var_names := var_names a;
                    var := highly_variable_genes a flavor n_top_genes n_bins batch_key
                           ∪ var a |}]> σ
  | None => σ
  end.

(** [hvg_batch(adata, batch_key, target_genes, flavor, n_bins, adataOut)].
    [batch_key] defaults to [None], which is not a column of [adata.obs].
    The [print] calls only write to the standard output and are left out. *)
Definition hvg_batch (fuel : nat) (σ : store) (adata : ref) (batch_key : option string)
    (target_genes : Z) (flavor : string) (n_bins : Z) (adataOut : bool)
    : outcome hvg_result * store :=
  match σ !! adata with
  | None => (Raised (KeyError "adata"), σ)
  | Some a =>
      let (adata_hvg, σ) := if adataOut then (adata, σ) else copy σ a in
      match batch_key with
      | None => (Raised (KeyError "None"), σ)
      | Some batch_key =>
          match obs a !! batch_key with
          | None => (Raised (KeyError batch_key), σ)
          | Some col =>
              let n_batches := Z.of_nat (length (categories col)) in
              let σ := sc_pp_highly_variable_genes σ adata_hvg flavor target_genes
                         n_bins batch_key in
              match σ !! adata_hvg with
              | None => (Raised (KeyError "adata_hvg"), σ)
              | Some a_hvg =>
                  match table ← var_table a_hvg;
                        select_hvg fuel table n_batches target_genes with
                  | Returned hvg =>
                      if adataOut then
                        match subset_vars a_hvg hvg with
                        | Returned sub =>
                            let (r, σ) := copy σ sub in (Returned (Subset r), σ)
                        | Raised e => (Raised e, σ)
                        | StillRunning => (StillRunning, σ)
                        end
                      else (Returned (GeneList hvg), σ)
                  | Raised e => (Raised e, σ)
                  | StillRunning => (StillRunning, σ)
                  end
              end
          end
      end
  end.

End hvg_batch.

(** ** Tensors *)

(** A tensor of shape [[shape0, shape1]]; only the entries within the shape
    are meaningful. *)
Record Tensor : Type := mkTensor {
  shape0 : nat;
  shape1 : nat;
  entry : nat -> nat -> R }.

(** A runtime error of the tensor library (incompatible shapes). *)
Definition InvalidArgument : exn := ValueError.

(** [f 0 + ... + f (n - 1)] *)
Fixpoint sum_upto (n : nat) (f : nat -> R) : R :=
  match n with
  | O => 0%R
  | S k => (sum_upto k f + f k)%R
  end.

(** Sum of a list of reals. *)
Definition sum_list (l : list R) : R := foldr Rplus 0%R l.

(** A scalar of the tensor library: a number, or NaN. *)
Inductive scalar : Type :=
  | Finite (r : R)
  | NaN.

Definition scalar_add (a b : scalar) : scalar :=
  match a, b with
  | Finite x, Finite y => Finite (x + y)%R
  | _, _ => NaN
  end.

Definition scalar_sub (a b : scalar) : scalar :=
  match a, b with
  | Finite x, Finite y => Finite (x - y)%R
  | _, _ => NaN
  end.

Definition scalar_scale (c : R) (a : scalar) : scalar :=
  match a with
  | Finite x => Finite (c * x)%R
  | NaN => NaN
  end.

(** [K.mean(t)] over all entries: the sum divided by the number of entries,
    NaN (0/0) when the tensor has no entry. *)
Definition K_mean (t : Tensor) : scalar :=
  if decide ((shape0 t * shape1 t)%nat = O) then NaN
  else Finite (sum_upto (shape0 t) (fun i => sum_upto (shape1 t) (fun j => entry t i j))
               / INR (shape0 t * shape1 t))%R.

(** NumPy broadcasting of one axis: equal sizes, or one of them is 1. *)
Definition broadcast_dim (a b : nat) : option nat :=
  if decide (a = b) then Some a
  else if decide (a = 1%nat) then Some b
  else if decide (b = 1%nat) then Some a
  else None.

(** The position read on an axis of size [dim] when the result is at [i]. *)
Definition broadcast_index (dim i : nat) : nat :=
  if decide (dim = 1%nat) then O else i.

(** An elementwise binary operation on two tensors of rank 2. *)
Definition elementwise (op : R -> R -> R) (a b : Tensor) : outcome Tensor :=
  match broadcast_dim (shape0 a) (shape0 b), broadcast_dim (shape1 a) (shape1 b) with
  | Some n, Some m =>
      Returned {| shape0 := n; shape1 := m;
                  entry := fun i j =>
                    op (entry a (broadcast_index (shape0 a) i) (broadcast_index (shape1 a) j))
                       (entry b (broadcast_index (shape0 b) i) (broadcast_index (shape1 b) j)) |}
  | _, _ => Raised InvalidArgument
  end.

Definition tensor_map (f : R -> R) (a : Tensor) : Tensor :=
  {| shape0 := shape0 a; shape1 := shape1 a; entry := fun i j => f (entry a i j) |}.

(** ** squared_distance *)

(** [r = K.expand_dims(x, axis=1)] has shape [[n, 1, d]]; [r - y] broadcasts
    against [y] of shape [[m, d']] to [[n, m, max d d']]; the squares are
    summed over the last axis. *)
Definition squared_distance (x y : Tensor) : outcome Tensor :=
  match broadcast_dim (shape1 x) (shape1 y) with
  | Some d =>
      Returned {| shape0 := shape0 x; shape1 := shape0 y;
                  entry := fun i j =>
                    sum_upto d (fun k =>
                      Rsqr (entry x i (broadcast_index (shape1 x) k)
                            - entry y j (broadcast_index (shape1 y) k))) |}
  | None => Raised InvalidArgument
  end.

(** ** compute_kernel *)

(** The keyword arguments: only ["scales"] is read. *)
Record kwargs : Type := { scales_kw : option (list R) }.

(** The bandwidths of the multi-scale kernel. *)
Definition sigmas : list R :=
  [ / 1000000; / 100000; / 10000; / 1000; / 100; / 10; 1; 5; 10; 15; 20; 25; 30; 35;
    100; 1000; 10000; 100000; 1000000 ]%R.

(** [compute_kernel(x, y, kernel, **kwargs)]. The value is [None] when the
    function reaches its end without a [return]. *)
Definition compute_kernel (x y : Tensor) (kernel : string) (kw : kwargs)
    : outcome (option Tensor) :=
  let scales := default [] (scales_kw kw) in
  if decide (kernel = "rbf"%string) then
    let x_size := shape0 x in
    let y_size := shape0 y in
    let dim := shape1 x in
    (* K.reshape(y, [1, y_size, dim]) keeps the number of entries *)
    if decide ((y_size * shape1 y)%nat = (y_size * dim)%nat) then
      Returned (Some
        {| shape0 := x_size; shape1 := y_size;
           entry := fun i j =>
             exp (- (sum_upto dim (fun k => Rsqr (entry x i k - entry y j k)) / INR dim)
                  / INR dim) |})
    else Raised InvalidArgument
  else if decide (kernel = "raphy"%string) then
    squared_dist ← squared_distance x y;
    let weights := INR (length scales) in
    Returned (Some
      {| shape0 := shape0 squared_dist; shape1 := shape1 squared_dist;
         entry := fun i j =>
           sum_list ((fun s => weights * exp (- entry squared_dist i j / (s ^ 2))) <$> scales) |})%R
  else if decide (kernel = "multi-scale-rbf"%string) then
    let beta := (fun s => 1 / (2 * s))%R <$> sigmas in
    distances ← squared_distance x y;
    Returned (Some
      {| shape0 := shape0 distances; shape1 := shape1 distances;
         entry := fun i j =>
           sum_list ((fun b => exp (- (b * entry distances i j))) <$> beta)
           / INR (length sigmas) |})%R
  else Returned None.

(** ** compute_mmd *)

(** [K.mean] of the value of [compute_kernel]; [None] has no [dtype]. *)
Definition K_mean_of (v : option Tensor) : outcome scalar :=
  match v with
  | Some t => Returned (K_mean t)
  | None => Raised AttributeError
  end.

Definition compute_mmd (x y : Tensor) (kernel : string) (kw : kwargs) : outcome scalar :=
  x_kernel ← compute_kernel x x kernel kw;
  y_kernel ← compute_kernel y y kernel kw;
  xy_kernel ← compute_kernel x y kernel kw;
  mx ← K_mean_of x_kernel;
  my ← K_mean_of y_kernel;
  mxy ← K_mean_of xy_kernel;
  Returned (scalar_sub (scalar_add mx my) (scalar_scale 2%R mxy)).

(** ** sample_z *)

(** The state of the tensor library's random generator: the sequence of
    standard-normal draws and how many of them have been consumed. *)
Record NormalSource : Type := {
  normal_draws : nat -> R;
  normal_consumed : nat }.

(** [K.random_normal(shape=[n, m])] *)
Definition random_normal (g : NormalSource) (n m : nat) : Tensor * NormalSource :=
  ({| shape0 := n; shape1 := m;
      entry := fun i j => normal_draws g (normal_consumed g + i * m + j)%nat |},
   {| normal_draws := normal_draws g;
      normal_consumed := (normal_consumed g + n * m)%nat |}).

Definition sample_z (g : NormalSource) (args : Tensor * Tensor)
    : outcome Tensor * NormalSource :=
  let (mu, log_var) := args in
  let batch_size := shape0 mu in
  let z_dim := shape1 mu in
  let (eps, g) := random_normal g batch_size z_dim in
  (scaled ← elementwise Rmult (tensor_map (fun v => exp (v / 2)) log_var) eps;
   elementwise Rplus mu scaled, g).

(** ** Predicates and sample data used in the statements *)

(** The test [e not in target_conditions], after the wrapping of a single
    value into a list. *)
Definition excluded (target_conditions : target_arg) (c : string) : Prop :=
  match target_conditions with
  | TargetList cs => c ∈ cs
  | OneTarget c' => c ∈ [c']
  end.
#[global] Instance excluded_dec t c : Decision (excluded t c).
Proof. destruct t; simpl; apply _. Defined.

(** A small matrix: three cells, conditions ["ctrl"; "stim"; "other"]. *)
Definition three_cells : AnnData :=
  {| X := [[1#1]; [2#1]; [3#1]]%Q;
     obs := {[ "condition"%string :=
                 {| values := ["ctrl"; "stim"; "other"]%string;
                    categories := ["ctrl"; "other"; "stim"]%string |} ]};
     var_names := ["g"]%string;
     var := ∅ |}.

(** One hundred cells measured on one gene, and a generator. *)
Definition hundred_cells : AnnData :=
  {| X := (fun i => [inject_Z (Z.of_nat i)]) <$> seq 0 100;
     obs := ∅;
     var_names := ["g"]%string;
     var := ∅ |}.

Definition sample_random_state : RandomState :=
  {| draws := fun i => (7 * i + 3)%nat; consumed := O |}.

(** Counting genes by the number of batches that flag them. *)
Section selection.
Variable table : list gene_row.
Variable n_batches : Z.

(** Number of genes flagged in more than [k] batches, and in exactly [k]. *)
Definition above (k : Z) : nat := length (dispersions_where (fun n => n > k) table).
Definition exactly (k : Z) : nat := length (dispersions_where (fun n => n = k) table).

(** A level below every count of the table. *)
Definition lowest : Z := foldr Z.min 0 (highly_variable_nbatches <$> table).

(** Iterations that the fill-up loop may need. *)
Definition enough_fuel : nat := Z.to_nat (Z.max 1 (n_batches - lowest)).

End selection.

(** Sixteen genes measured in three batches: five flagged in all of them,
    ten in two, one in none; and the columns that the statistics routine
    writes for them. *)
Definition sixteen_genes : AnnData :=
  {| X := [];
     obs := {[ "batch"%string :=
                 {| values := []; categories := ["b1"; "b2"; "b3"]%string |} ]};
     var_names := ["g01"; "g02"; "g03"; "g04"; "g05"; "g06"; "g07"; "g08"; "g09"; "g10"; "g11"; "g12"; "g13"; "g14"; "g15"; "g16"]%string;
     var := ∅ |}.

Definition sample_dispersions : list (option Q) :=
  [Some (9 # 1); Some (8 # 1); Some (7 # 1); Some (6 # 1); Some (5 # 1); Some (40 # 10); Some (39 # 10); Some (38 # 10); Some (37 # 10); Some (36 # 10); Some (35 # 10); Some (34 # 10); Some (33 # 10); Some (32 # 10); Some (31 # 10); None]%Q.

Definition sample_nbatches : list Z :=
  [3; 3; 3; 3; 3; 2; 2; 2; 2; 2; 2; 2; 2; 2; 2; 0].

Definition sample_statistics (adata : AnnData) (flavor : string) (n_top_genes n_bins : Z)
    (batch_key : string) : gmap string var_column :=
  {[ "dispersions_norm"%string := FloatColumn sample_dispersions;
     "highly_variable_nbatches"%string := IntColumn sample_nbatches ]}.

Definition sample_store : gmap positive AnnData := {[ 1%positive := sixteen_genes ]}.

Definition sample_table : list gene_row :=
  zip_rows (var_names sixteen_genes) sample_dispersions sample_nbatches.

Definition batch_column : obs_column :=
  {| values := []; categories := ["b1"; "b2"; "b3"]%string |}.

(** A two-by-two tensor and a source of draws. *)
Definition sample_tensor : Tensor :=
  {| shape0 := 2; shape1 := 2;
     entry := fun i j => (INR i + 2 * INR j)%R |}.

Definition sample_normal_source : NormalSource :=
  {| normal_draws := fun k => (INR k - 1)%R; normal_consumed := O |}.

(** The kernels that [compute_kernel] knows. *)
Definition supported_kernel (kernel : string) : Prop :=
  kernel = "rbf"%string \/ kernel = "raphy"%string \/ kernel = "multi-scale-rbf"%string.

(** Two further cells, with conditions that [three_cells] has. *)
Definition two_cells : AnnData :=
  {| X := [[4#1]; [5#1]]%Q;
     obs := {[ "condition"%string :=
                 {| values := ["stim"; "ctrl"]%string;
                    categories := ["ctrl"; "stim"]%string |} ]};
     var_names := ["g"]%string;
     var := ∅ |}.

(** The matrix after the columns [cols] of the statistics routine have been
    written into its per-gene metadata. *)
Definition with_statistics (cols : gmap string var_column) (a : AnnData) : AnnData :=
  {| X := X a; obs := obs a; var_names := var_names a; var := cols ∪ var a |}.

(** The squared distance between row [i] of [x] and row [j] of [y], both of
    width [d]. *)
Definition row_distance (x y : Tensor) (d i j : nat) : R :=
  sum_upto d (fun k => Rsqr (entry x i (broadcast_index d k)
                             - entry y j (broadcast_index d k))).

(** The value of each kernel on tensors of one width. *)
Definition rbf_entry (x y : Tensor) (i j : nat) : R :=
  exp (- (sum_upto (shape1 x) (fun k => Rsqr (entry x i k - entry y j k)) / INR (shape1 x))
       / INR (shape1 x)).

Definition raphy_entry (scales : list R) (x y : Tensor) (i j : nat) : R :=
  sum_list ((fun s => INR (length scales)
                      * exp (- row_distance x y (shape1 y) i j / (s ^ 2)))%R <$> scales).

Definition multi_scale_entry (x y : Tensor) (i j : nat) : R :=
  (sum_list ((fun b => exp (- (b * row_distance x y (shape1 y) i j)))
             <$> ((fun s => 1 / (2 * s)) <$> sigmas))
   / INR (length sigmas))%R.

(** A tensor of three columns. *)
Definition wide_tensor : Tensor :=
  {| shape0 := 2; shape1 := 3; entry := fun i j => (INR i - INR j)%R |}.

(** One cell, of condition ["ctrl"]. *)
Definition one_cell_column : obs_column :=
  {| values := ["ctrl"%string]; categories := ["ctrl"%string] |}.

Definition one_cell : AnnData :=
  {| X := [[1#1]]%Q;
     obs := {[ "condition"%string := one_cell_column ]};
     var_names := ["g"]%string;
     var := ∅ |}.

Definition double_0_29 : float := 0x1.28f5c28f5c28fp-2%float.

(** The rational number that a finite double stands for. *)
Definition float_value (x : float) : option Q :=
  match Prim2SF x with
  | S754_zero _ => Some 0%Q
  | S754_finite s m e =>
      let q := if 0 <=? e then inject_Z (Z.pos m * 2 ^ e)
               else Qmake (Z.pos m) (Z.to_pos (2 ^ (- e))) in
      Some (if s then Qopp q else q)
  | _ => None
  end.

(** Three cells measured on one gene. *)
Definition three_rows : AnnData :=
  {| X := [[1#1]; [2#1]; [3#1]]%Q; obs := ∅; var_names := ["g"]%string; var := ∅ |}.

(** A tensor without rows. *)
Definition empty_tensor : Tensor :=
  {| shape0 := 0; shape1 := 2; entry := fun _ _ => 0%R |}.

(** * Properties *)

(** ** create_dictionary *)

Example create_dictionary_ex :
  create_dictionary ["a"; "b"; "c"; "d"]%string (TargetList ["b"]%string) !! "c"%string = Some 1.
Proof. reflexivity. Qed.

Lemma enumerate_fold_lookup (l : list string) :
  forall (k : nat) (m : gmap string Z) (c : string) (idx : Z),
  NoDup l ->
  foldl (fun dictionary '(idx, condition) => <[condition := idx]> dictionary) m
        (imap (fun i a => (Z.of_nat (k + i), a)) l) !! c = Some idx
  <-> (exists i, idx = Z.of_nat (k + i) /\ l !! i = Some c) \/ ((c ∉ l) /\ m !! c = Some idx).
Proof.
  induction l as [|x l IH]; intros k m c idx Hnd.
  - simpl. split.
    + intros H. right. split; [apply not_elem_of_nil | exact H].
    + intros [(i & _ & Hi) | [_ H]]; [discriminate Hi | exact H].
  - apply NoDup_cons in Hnd as [Hx Hnd].
    rewrite imap_cons. cbn [foldl].
    rewrite (imap_ext _ (fun i a => (Z.of_nat (S k + i), a))).
    2:{ intros i a _. simpl. do 2 f_equal. lia. }
    rewrite (IH (S k) _ c idx Hnd). split.
    + intros [(i & -> & Hi) | [Hc Hm]].
      * left. exists (S i). split; [f_equal; lia | exact Hi].
      * destruct (decide (c = x)) as [->|Hne].
        -- rewrite lookup_insert_eq in Hm. injection Hm as <-.
           left. exists O. split; [f_equal; lia | reflexivity].
        -- rewrite lookup_insert_ne in Hm by congruence.
           right. split; [|exact Hm]. rewrite not_elem_of_cons. auto.
    + intros [(i & -> & Hi) | [Hc Hm]].
      * destruct i as [|i].
        -- simpl in Hi. injection Hi as ->. right. split; [exact Hx|].
           rewrite lookup_insert_eq. reflexivity.
        -- left. exists i. split; [f_equal; lia | exact Hi].
      * apply not_elem_of_cons in Hc as [Hne Hc]. right. split; [exact Hc|].
        rewrite lookup_insert_ne by congruence. exact Hm.
Qed.

(** C10. For pairwise-distinct conditions, the dictionary returned by
    [create_dictionary] has as keys exactly the conditions that are not in
    [target_conditions], and maps each of them to its position in the
    filtered sequence: the values are 0, 1, ... in order of appearance. *)
Theorem create_dictionary_positions (conditions : list string) (target_conditions : target_arg) :
  NoDup conditions ->
  let kept := filter (fun c => ~ excluded target_conditions c) conditions in
  (forall c, is_Some (create_dictionary conditions target_conditions !! c)
             <-> c ∈ conditions /\ ~ excluded target_conditions c)
  /\ (forall c idx, create_dictionary conditions target_conditions !! c = Some idx
                    <-> exists i : nat, idx = Z.of_nat i /\ kept !! i = Some c)
  /\ (forall i : nat, (i < length kept)%nat ->
        exists c, kept !! i = Some c
                  /\ create_dictionary conditions target_conditions !! c = Some (Z.of_nat i)).
Proof.
  intros Hnd kept.
  assert (Hkept : NoDup kept) by (apply NoDup_filter; exact Hnd).
  assert (Hdict : forall c idx,
             create_dictionary conditions target_conditions !! c = Some idx
             <-> exists i : nat, idx = Z.of_nat i /\ kept !! i = Some c).
  { intros c idx. unfold create_dictionary, enumerate.
    replace (filter _ conditions) with kept.
    2:{ unfold kept. destruct target_conditions; reflexivity. }
    rewrite (enumerate_fold_lookup kept O ∅ c idx Hkept). split.
    - intros [(i & -> & Hi) | [_ Hm]]; [eauto | rewrite lookup_empty in Hm; discriminate].
    - intros (i & -> & Hi). left. eauto. }
  split; [|split].
  - intros c. split.
    + intros [idx Hidx]. apply Hdict in Hidx as (i & _ & Hi).
      apply list_elem_of_lookup_2 in Hi. apply list_elem_of_filter in Hi. tauto.
    + intros [Hin Hex].
      assert (Hk : c ∈ kept) by (apply list_elem_of_filter; auto).
      apply list_elem_of_lookup_1 in Hk as [i Hi].
      exists (Z.of_nat i). apply Hdict. eauto.
  - exact Hdict.
  - intros i Hi. apply lookup_lt_is_Some_2 in Hi as [c Hc].
    exists c. split; [exact Hc|]. apply Hdict. eauto.
Qed.

Lemma create_dictionary_positions_witness :
  create_dictionary ["a"; "b"; "c"]%string (OneTarget "b"%string) !! "c"%string = Some 1.
Proof.
  pose proof (create_dictionary_positions ["a"; "b"; "c"]%string (OneTarget "b"%string)) as H.
  assert (Hnd : NoDup ["a"; "b"; "c"]%string) by (apply (bool_decide_unpack _); vm_compute; exact I).
  destruct (H Hnd) as (_ & Hpos & _).
  apply Hpos. exists 1%nat. split; reflexivity.
Defined.

(** ** label_encoder *)

Lemma float64_of_int_exact (z : Z) : Z.abs z <= 2 ^ 53 -> float64_of_int z = Returned z.
Proof.
  intros H. unfold float64_of_int.
  destruct (Z.leb_spec (Z.abs z) (2 ^ 53)); [reflexivity | lia].
Qed.

Lemma assign_where_lookup (labels : list Z) (col : list string) (condition : string)
    (label : Z) :
  length labels = length col ->
  Z.abs label <= 2 ^ 53 ->
  exists labels',
    assign_where labels ((fun v => bool_decide (v = condition)) <$> col) label = Returned labels'
    /\ length labels' = length labels
    /\ forall i v old, col !! i = Some v -> labels !! i = Some old ->
         labels' !! i = Some (if decide (v = condition) then label else old).
Proof.
  intros Hlen Hcode. unfold assign_where.
  rewrite decide_True by (rewrite length_fmap; lia).
  rewrite (float64_of_int_exact label Hcode). cbn.
  eexists. split; [reflexivity|]. split.
  - rewrite length_zip_with, length_fmap. lia.
  - intros i v old Hv Hold.
    rewrite lookup_zip_with, list_lookup_fmap, Hv, Hold. simpl.
    destruct (decide (v = condition)) as [Heq|Hne].
    + rewrite bool_decide_eq_true_2 by exact Heq. reflexivity.
    + rewrite bool_decide_eq_false_2 by exact Hne. reflexivity.
Qed.

Lemma encode_items_lookup (adata : AnnData) (condition_key : string) (col : obs_column)
    (items : list (string * Z)) :
  obs adata !! condition_key = Some col ->
  NoDup items.*1 ->
  Forall (fun item => Z.abs item.2 <= 2 ^ 53) items ->
  forall labels, length labels = length (values col) ->
  exists labels',
    encode_items adata condition_key items labels = Returned labels'
    /\ length labels' = length labels
    /\ forall i v old, values col !! i = Some v -> labels !! i = Some old ->
         (forall code, (v, code) ∈ items -> labels' !! i = Some code)
         /\ ((v ∉ items.*1) -> labels' !! i = Some old).
Proof.
  intros Hcol. induction items as [|[c l] rest IH]; intros Hnd Hcodes labels Hlen.
  - exists labels. split; [reflexivity|]. split; [reflexivity|].
    intros i v old _ Hold. split; [|auto].
    intros code Hin. apply elem_of_nil in Hin. destruct Hin.
  - rewrite fmap_cons in Hnd. apply NoDup_cons in Hnd as [Hc Hnd]. simpl in Hc.
    apply Forall_cons in Hcodes as [Hl Hcodes]. simpl in Hl.
    destruct (assign_where_lookup labels (values col) c l Hlen Hl)
      as (labels1 & Hassign & Hlen1 & Hget1).
    destruct (IH Hnd Hcodes labels1 ltac:(lia)) as (labels' & Hrun & Hlen' & Hget').
    exists labels'. split; [|split; [lia|]].
    + cbn [encode_items]. unfold obs_get. rewrite Hcol. cbn. rewrite Hassign. cbn. exact Hrun.
    + intros i v old Hv Hold.
      specialize (Hget1 i v old Hv Hold).
      destruct (Hget' i v _ Hv Hget1) as [Hkey Hmiss]. split.
      * intros code Hin. apply elem_of_cons in Hin as [Heq|Hin]; [|auto].
        injection Heq as -> ->. rewrite (Hmiss Hc).
        rewrite decide_True by reflexivity. reflexivity.
      * intros Hnot. rewrite fmap_cons in Hnot. apply not_elem_of_cons in Hnot as [Hne Hnot].
        simpl in Hne. rewrite (Hmiss Hnot). rewrite decide_False by exact Hne. reflexivity.
Qed.

Lemma map_to_list_codes (d : gmap string Z) :
  (forall c code, d !! c = Some code -> Z.abs code <= 2 ^ 53) ->
  Forall (fun item => Z.abs item.2 <= 2 ^ 53) (map_to_list d).
Proof.
  intros H. apply Forall_forall. intros [c code] Hin.
  apply elem_of_map_to_list in Hin. simpl. exact (H c code Hin).
Qed.

(** C7. Called with a mapping whose codes are integers that the [float64]
    label array holds exactly (up to [2^53] in absolute value),
    [label_encoder] gives every row whose condition is a key of the mapping
    that key's code, leaves every other row at the default code 0, and
    returns the mapping unchanged. *)
Theorem label_encoder_dict (adata : AnnData) (d : gmap string Z) (condition_key : string)
    (col : obs_column) :
  obs adata !! condition_key = Some col ->
  length (values col) = n_obs adata ->
  (forall c code, d !! c = Some code -> Z.abs code <= 2 ^ 53) ->
  exists labels,
    label_encoder adata (DictEncoder d) condition_key = Returned (labels, DictEncoder d)
    /\ length labels = n_obs adata
    /\ (forall i v code, values col !! i = Some v -> d !! v = Some code ->
          labels !! i = Some [code])
    /\ (forall i v, values col !! i = Some v -> d !! v = None ->
          labels !! i = Some [0]).
Proof.
  intros Hcol Hlen Hcodes.
  destruct (encode_items_lookup adata condition_key col (map_to_list d) Hcol
              (NoDup_fst_map_to_list d) (map_to_list_codes d Hcodes)
              (replicate (n_obs adata) 0))
    as (labels & Hrun & Hlen' & Hget).
  { rewrite length_replicate. lia. }
  rewrite length_replicate in Hlen'.
  exists (reshape_column labels). split; [|split; [|split]].
  - unfold label_encoder. rewrite Hrun. reflexivity.
  - unfold reshape_column. rewrite length_fmap. exact Hlen'.
  - intros i v code Hv Hd.
    assert (Hi : (i < n_obs adata)%nat) by (apply lookup_lt_Some in Hv; lia).
    destruct (Hget i v 0 Hv) as [Hkey _].
    { apply lookup_replicate_2. exact Hi. }
    unfold reshape_column. rewrite list_lookup_fmap.
    rewrite (Hkey code) by (apply elem_of_map_to_list; exact Hd). reflexivity.
  - intros i v Hv Hd.
    assert (Hi : (i < n_obs adata)%nat) by (apply lookup_lt_Some in Hv; lia).
    destruct (Hget i v 0 Hv) as [_ Hmiss].
    { apply lookup_replicate_2. exact Hi. }
    unfold reshape_column. rewrite list_lookup_fmap.
    rewrite Hmiss; [reflexivity|].
    intros Hin. apply list_elem_of_fmap in Hin as ([k c] & -> & Hin).
    apply elem_of_map_to_list in Hin. simpl in Hd. congruence.
Qed.

(** The mapping is read only for conditions that occur: with an empty
    mapping the column is not even looked up. *)
Lemma label_encoder_empty_dict (adata : AnnData) (condition_key : string) :
  label_encoder adata (DictEncoder ∅) condition_key
  = Returned (reshape_column (replicate (n_obs adata) 0), DictEncoder ∅).
Proof. unfold label_encoder. rewrite map_to_list_empty. reflexivity. Qed.

Lemma label_encoder_dict_witness :
  exists labels,
    label_encoder three_cells (DictEncoder {[ "ctrl"%string := 4; "stim"%string := 7 ]})
      "condition"%string
    = Returned (labels, DictEncoder {[ "ctrl"%string := 4; "stim"%string := 7 ]})
    /\ labels !! 1%nat = Some [7] /\ labels !! 2%nat = Some [0].
Proof.
  destruct (label_encoder_dict three_cells {[ "ctrl"%string := 4; "stim"%string := 7 ]}
              "condition"%string
              {| values := ["ctrl"; "stim"; "other"]%string;
                 categories := ["ctrl"; "other"; "stim"]%string |})
    as (labels & Hrun & _ & Hkey & Hmiss).
  - reflexivity.
  - reflexivity.
  - intros c code Hc.
    assert (Hin : (c, code) ∈ map_to_list
                    ({[ "ctrl"%string := 4; "stim"%string := 7 ]} : gmap string Z))
      by (apply elem_of_map_to_list; exact Hc).
    vm_compute map_to_list in Hin.
    apply elem_of_cons in Hin as [Heq|Hin];
      [|apply elem_of_cons in Hin as [Heq|Hin]; [|apply elem_of_nil in Hin; destruct Hin]];
      injection Heq as -> ->; vm_compute; discriminate.
  - exists labels. split; [exact Hrun|]. split.
    + apply (Hkey 1%nat "stim"%string 7); reflexivity.
    + apply (Hmiss 2%nat "other"%string); reflexivity.
Defined.

(** The code [2^53 + 1] is a key's code, and the row of that key comes back
    with [2^53]: the label array is of type [float64]. *)
Lemma label_encoder_dict_rounds :
  ({[ "ctrl"%string := 2 ^ 53 + 1 ]} : gmap string Z) !! "ctrl"%string = Some (2 ^ 53 + 1)
  /\ values one_cell_column !! 0%nat = Some "ctrl"%string
  /\ label_encoder one_cell (DictEncoder {[ "ctrl"%string := 2 ^ 53 + 1 ]}) "condition"%string
     = Returned ([[2 ^ 53]], DictEncoder {[ "ctrl"%string := 2 ^ 53 + 1 ]})
  /\ 2 ^ 53 <> 2 ^ 53 + 1.
Proof.
  split; [reflexivity|]. split; [reflexivity|]. split; [|lia].
  vm_compute. reflexivity.
Qed.

(** The rounding of [float64_of_int] is that of the conversion of an
    integer to a double. *)
Example float64_of_int_agrees :
  Forall (fun z => py_int (PrimFloat.of_uint63 (Uint63.of_Z z)) = float64_of_int z)
    [0; 7; 2 ^ 53; 2 ^ 53 + 1; 2 ^ 53 + 2; 2 ^ 53 + 3; 2 ^ 54 + 2; 2 ^ 54 + 6;
     2 ^ 60 + 12345; 2 ^ 62 + 2 ^ 9; 2 ^ 62 + 2 ^ 9 + 1; 2 ^ 63 - 1].
Proof. repeat constructor. Qed.

Example float64_of_int_too_large : float64_of_int (2 ^ 1024) = Raised OverflowError.
Proof. vm_compute. reflexivity. Qed.

(** ** train_test_split *)


Lemma swap_Permutation {A} (x : list A) (i j : nat) : swap x i j ≡ₚ x.
Proof.
  unfold swap.
  destruct (x !! i) as [a|] eqn:Hi; [|reflexivity].
  destruct (x !! j) as [b|] eqn:Hj; [|reflexivity].
  apply Permutation_insert_swap; assumption.
Qed.

Lemma shuffle_from_Permutation {A} (i : nat) :
  forall (rs : RandomState) (x : list A), (shuffle_from i rs x).1 ≡ₚ x.
Proof.
  induction i as [|i IH]; intros rs x; [reflexivity|].
  cbn [shuffle_from]. destruct (random_interval rs (S i)) as [j rs'].
  rewrite IH. apply swap_Permutation.
Qed.

Lemma shuffle_Permutation {A} (rs : RandomState) (x : list A) : (shuffle rs x).1 ≡ₚ x.
Proof. apply shuffle_from_Permutation. Qed.

Lemma take_rows_length {A} (rows : list A) (idx : list nat) :
  Forall (fun i => (i < length rows)%nat) idx -> length (take_rows rows idx) = length idx.
Proof.
  unfold take_rows. induction 1 as [|i idx Hi _ IH]; [reflexivity|].
  apply lookup_lt_is_Some_2 in Hi as [a Ha].
  cbn. rewrite Ha. cbn. f_equal. exact IH.
Qed.

Lemma take_rows_seq {A} (rows pre : list A) :
  take_rows (pre ++ rows) (seq (length pre) (length rows)) = rows.
Proof.
  revert pre. induction rows as [|a rows IH]; intros pre; [reflexivity|].
  unfold take_rows in *. cbn [length seq]. cbn.
  rewrite lookup_app_r by lia. rewrite Nat.sub_diag. cbn. f_equal.
  specialize (IH (pre ++ [a])).
  rewrite length_app, <- (assoc_L (++)) in IH. cbn in IH.
  rewrite Nat.add_1_r in IH. exact IH.
Qed.

Lemma take_rows_Permutation {A} (rows : list A) (idx : list nat) :
  idx ≡ₚ seq 0 (length rows) -> take_rows rows idx ≡ₚ rows.
Proof.
  intros Hperm. unfold take_rows. rewrite Hperm.
  exact (eq_ind _ (fun l => l ≡ₚ rows) (reflexivity rows) _ (eq_sym (take_rows_seq rows []))).
Qed.

(** [int] of a finite double is its value rounded towards zero. *)
Lemma py_int_truncates (x : float) (q : Q) :
  float_value x = Some q -> py_int x = Returned (Z.quot (Qnum q) (Z.pos (Qden q))).
Proof.
  unfold float_value, py_int. destruct (Prim2SF x) as [s|s| |s m e]; try discriminate.
  - intros [= <-]. reflexivity.
  - intros [= <-]. destruct (Z.leb_spec 0 e) as [He|He].
    + destruct s; simpl; rewrite Z.quot_1_r; reflexivity.
    + assert (Hpos : 0 < 2 ^ (- e)) by (apply Z.pow_pos_nonneg; lia).
      destruct s; simpl Qnum; simpl Qden; rewrite Z2Pos.id by exact Hpos.
      * change (Z.neg m) with (- Z.pos m). rewrite Z.quot_opp_l by lia.
        rewrite Z.quot_div_nonneg by lia. reflexivity.
      * rewrite Z.quot_div_nonneg by lia. reflexivity.
Qed.


(** When the product is no finite double, [int] raises before any index
    is shuffled. *)
Lemma train_test_split_raises (rs : RandomState) (adata : AnnData) (train_frac : float)
    (e : exn) :
  py_int (float_of_nat (n_obs adata) * train_frac)%float = Raised e ->
  train_test_split rs adata train_frac = (Raised e, rs).
Proof. intros H. unfold train_test_split. rewrite H. reflexivity. Qed.





(** The double [0.29] lies below 29/100: one hundred rows are cut at 28. *)
Example train_test_split_rounded_fraction :
  py_int (float_of_nat 100 * double_0_29)%float = Returned 28.
Proof. vm_compute. reflexivity. Qed.

(** A product beyond the doubles makes [int] raise. *)
Example train_test_split_overflow :
  train_test_split sample_random_state three_rows 0x1p+1023%float
  = (Raised OverflowError, sample_random_state).
Proof. apply train_test_split_raises. vm_compute. reflexivity. Qed.

(** ** hvg_batch: the selection *)

Lemma length_dispersions_where (P : Z -> Prop) `{!forall n, Decision (P n)} table :
  length (dispersions_where P table)
  = length (filter (fun r => P (highly_variable_nbatches r)) table).
Proof. unfold dispersions_where. apply length_fmap. Qed.

Lemma length_index (s : Series) : length (index s) = length s.
Proof. unfold index. apply length_fmap. Qed.

Lemma length_sort_values (s : Series) : length (sort_values s) = length s.
Proof. unfold sort_values. apply Permutation_length, merge_sort_Permutation. Qed.

Lemma above_step table (k : Z) : above table (k - 1) = (above table k + exactly table k)%nat.
Proof.
  unfold above, exactly. rewrite !length_dispersions_where.
  induction table as [|r t IH]; [reflexivity|].
  rewrite !filter_cons. repeat case_decide; simpl; lia.
Qed.

Lemma above_le table (k : Z) : (above table k <= length table)%nat.
Proof. unfold above. rewrite length_dispersions_where. apply length_filter. Qed.

Lemma lowest_le table (r : gene_row) : r ∈ table -> lowest table <= highly_variable_nbatches r.
Proof.
  unfold lowest. induction 1 as [r t | r r' t _ IH]; rewrite fmap_cons; cbn [foldr]; lia.
Qed.

Lemma filter_all {A} (P : A -> Prop) `{!forall x, Decision (P x)} (l : list A) :
  Forall P l -> filter P l = l.
Proof.
  induction 1 as [|x l Hx _ IH]; [reflexivity|].
  rewrite filter_cons_True by exact Hx. f_equal. exact IH.
Qed.

Lemma above_all table (k : Z) : k < lowest table -> above table k = length table.
Proof.
  intros Hk. unfold above. rewrite length_dispersions_where.
  f_equal. apply filter_all. apply Forall_forall. intros r Hr.
  apply lowest_le in Hr. simpl. lia.
Qed.

Lemma length_slice_to {A} (l : list A) (k : Z) :
  0 <= k <= Z.of_nat (length l) -> length (slice_to l k) = Z.to_nat k.
Proof.
  intros Hk. unfold slice_to, slice_bound.
  destruct (Z.ltb_spec k 0); [lia|]. rewrite length_take. lia.
Qed.

Lemma fill_up_enough (fuel : nat) table n_batches target_genes (st : fill_state) :
  enough st = true -> fill_up fuel table n_batches target_genes st = Returned st.
Proof. intros H. destruct fuel; simpl; rewrite H; reflexivity. Qed.

(** The loop keeps in [hvg] all the genes above the current level; it stops
    at the first level whose pool fills the quota, which exists when the
    table has at least [target_genes] genes. *)
Lemma fill_up_returns table n_batches target_genes :
  target_genes <= Z.of_nat (length table) ->
  forall (fuel : nat) (st : fill_state),
  enough st = false ->
  length (hvg st) = above table (n_batches - not_n_batches st) ->
  Z.of_nat (length (hvg st)) <= target_genes ->
  1 <= Z.of_nat fuel ->
  n_batches - not_n_batches st - lowest table + 1 <= Z.of_nat fuel ->
  exists st',
    fill_up fuel table n_batches target_genes st = Returned st'
    /\ enough st' = true
    /\ Z.of_nat (length (hvg st')) = target_genes
    /\ not_n_batches st <= not_n_batches st'
       <= Z.max (not_n_batches st) (n_batches - lowest table).
Proof.
  intros Htotal. induction fuel as [|fuel IH]; intros st Hrun Hinv Hle Hone Hfuel; [lia|].
  cbn [fill_up]. rewrite Hrun.
  pose proof (above_step table (n_batches - not_n_batches st)) as Hstep.
  unfold fill_step. fold (exactly table (n_batches - not_n_batches st)).
  destruct (Z.ltb_spec (Z.of_nat (exactly table (n_batches - not_n_batches st)))
              (target_genes - Z.of_nat (length (hvg st)))) as [Hfew|Hmany].
  - assert (Hlen : length (hvg st ++ index (dispersions_where
                      (fun n => n = n_batches - not_n_batches st) table))
                   = above table (n_batches - (not_n_batches st + 1))).
    { rewrite length_app, length_index.
      replace (n_batches - (not_n_batches st + 1)) with (n_batches - not_n_batches st - 1) by lia.
      rewrite Hstep, Hinv. reflexivity. }
    assert (Hlevel : lowest table < n_batches - not_n_batches st).
    { destruct (Z.lt_ge_cases (lowest table) (n_batches - not_n_batches st)) as [|Hlow]; [assumption|].
      exfalso.
      rewrite (above_all table (n_batches - not_n_batches st - 1)) in Hstep by lia.
      lia. }
    match goal with
    | |- context [fill_up fuel table n_batches target_genes ?s] =>
        destruct (IH s) as (st' & Hret & Hen & Hlen' & Hlevels)
    end; cbn [hvg not_n_batches enough] in *.
    + reflexivity.
    + exact Hlen.
    + rewrite Hlen.
      replace (n_batches - (not_n_batches st + 1)) with (n_batches - not_n_batches st - 1) by lia.
      rewrite Hstep. lia.
    + lia.
    + lia.
    + exists st'. split; [exact Hret|]. split; [exact Hen|]. split; [exact Hlen'|]. lia.
  - eexists. split; [apply fill_up_enough; reflexivity|]. cbn [hvg enough not_n_batches].
    split; [reflexivity|]. split; [|lia].
    rewrite length_app, length_slice_to.
    + lia.
    + rewrite length_index, length_sort_values.
      fold (exactly table (n_batches - not_n_batches st)). lia.
Qed.

(** More fuel does not change the value of the loop. *)
Lemma fill_up_more_fuel table n_batches target_genes (fuel : nat) :
  forall (st st' : fill_state) (extra : nat),
  fill_up fuel table n_batches target_genes st = Returned st' ->
  fill_up (fuel + extra) table n_batches target_genes st = Returned st'.
Proof.
  induction fuel as [|fuel IH]; intros st st' extra H.
  - simpl in H. destruct (enough st) eqn:He; [|discriminate].
    rewrite fill_up_enough by exact He. exact H.
  - cbn [fill_up Nat.add] in *. destruct (enough st); [exact H|]. apply IH. exact H.
Qed.

(** With fewer genes than [target_genes] no level ever fills the quota. *)
Lemma fill_up_diverges table n_batches target_genes :
  Z.of_nat (length table) < target_genes ->
  forall (fuel : nat) (st : fill_state),
  enough st = false ->
  length (hvg st) = above table (n_batches - not_n_batches st) ->
  fill_up fuel table n_batches target_genes st = StillRunning.
Proof.
  intros Hsmall. induction fuel as [|fuel IH]; intros st Hrun Hinv.
  - simpl. rewrite Hrun. reflexivity.
  - cbn [fill_up]. rewrite Hrun.
    pose proof (above_step table (n_batches - not_n_batches st)) as Hstep.
    pose proof (above_le table (n_batches - not_n_batches st - 1)) as Hall.
    unfold fill_step. fold (exactly table (n_batches - not_n_batches st)).
    destruct (Z.ltb_spec (Z.of_nat (exactly table (n_batches - not_n_batches st)))
                (target_genes - Z.of_nat (length (hvg st)))) as [Hfew|Hmany]; [|lia].
    apply IH; cbn [hvg not_n_batches enough]; [reflexivity|].
    rewrite length_app, length_index.
    replace (n_batches - (not_n_batches st + 1)) with (n_batches - not_n_batches st - 1) by lia.
    rewrite Hstep, Hinv. reflexivity.
Qed.

Lemma comes_before_total : Total comes_before.
Proof.
  intros [g1 [x|]] [g2 [y|]]; unfold comes_before; simpl; auto.
  destruct (Qlt_le_dec x y) as [Hlt|Hle].
  - right. apply Qle_bool_iff, Qlt_le_weak. exact Hlt.
  - left. apply Qle_bool_iff. exact Hle.
Qed.

Lemma comes_before_transitive : Transitive comes_before.
Proof.
  intros [g1 [x|]] [g2 [y|]] [g3 [z|]]; unfold comes_before; simpl; try congruence.
  rewrite !Qle_bool_iff. intros H1 H2. exact (Qle_trans _ _ _ H2 H1).
Qed.

Lemma sort_values_Permutation (s : Series) : sort_values s ≡ₚ s.
Proof. apply merge_sort_Permutation. Qed.

Lemma sort_values_sorted (s : Series) : StronglySorted comes_before (sort_values s).
Proof.
  apply (@StronglySorted_merge_sort _ comes_before _ comes_before_transitive
           comes_before_total).
Qed.

(** The first [k] entries of a sorted series dominate the others. *)
Lemma sort_values_take_drop (s : Series) (k : nat) p q :
  p ∈ take k (sort_values s) -> q ∈ drop k (sort_values s) -> comes_before p q.
Proof.
  intros Hp Hq. pose proof (sort_values_sorted s) as Hs.
  rewrite <- (take_drop k (sort_values s)) in Hs.
  exact (StronglySorted_app_1_elem_of _ _ _ _ _ Hs Hp Hq).
Qed.

Lemma slice_to_index (s : Series) (k : Z) :
  0 <= k -> slice_to (index s) k = index (take (Z.to_nat k) s).
Proof.
  intros Hk. unfold slice_to, slice_bound, index.
  destruct (Z.ltb_spec k 0); [lia|]. symmetry. apply fmap_take.
Qed.

(** With at least [target_genes] genes in the table the selection returns
    exactly [target_genes] of them. *)
Lemma select_hvg_length table n_batches target_genes :
  0 <= target_genes <= Z.of_nat (length table) ->
  exists genes,
    (forall extra : nat,
       select_hvg (enough_fuel table n_batches + extra) table n_batches target_genes
       = Returned genes)
    /\ Z.of_nat (length genes) = target_genes.
Proof.
  intros [Hpos Htotal]. unfold select_hvg.
  destruct (Z.ltb_spec target_genes
              (Z.of_nat (length (sort_values (dispersions_where
                 (fun n => n > n_batches - 1) table))))) as [Hlt|Hge].
  - eexists. split; [reflexivity|].
    rewrite length_slice_to; [lia|]. rewrite length_index. lia.
  - rewrite length_sort_values in Hge.
    destruct (fill_up_returns table n_batches target_genes Htotal
                (enough_fuel table n_batches)
                {| hvg := index (sort_values (dispersions_where
                                   (fun n => n > n_batches - 1) table));
                   not_n_batches := 1; enough := false |})
      as (st & Hret & _ & Hlen & _); cbn [hvg not_n_batches enough].
    + reflexivity.
    + rewrite length_index, length_sort_values. reflexivity.
    + rewrite length_index, length_sort_values. exact Hge.
    + unfold enough_fuel. lia.
    + unfold enough_fuel. lia.
    + exists (hvg st). split; [|exact Hlen].
      intros extra. rewrite (fill_up_more_fuel _ _ _ _ _ _ extra Hret). reflexivity.
Qed.

(** With fewer genes than [target_genes] the selection never returns. *)
Lemma select_hvg_diverges table n_batches target_genes (fuel : nat) :
  Z.of_nat (length table) < target_genes ->
  select_hvg fuel table n_batches target_genes = StillRunning.
Proof.
  intros Hsmall. unfold select_hvg.
  pose proof (above_le table (n_batches - 1)) as Hle. unfold above in Hle.
  destruct (Z.ltb_spec target_genes
              (Z.of_nat (length (sort_values (dispersions_where
                 (fun n => n > n_batches - 1) table))))) as [Hlt|Hge].
  - rewrite length_sort_values in Hlt. lia.
  - rewrite fill_up_diverges; [reflexivity | exact Hsmall | reflexivity |].
    cbn [hvg not_n_batches]. rewrite length_index, length_sort_values. reflexivity.
Qed.

(** When the genes of the next level fill the quota, the selection is the
    sorted top level followed by the best of the next level. *)
Lemma select_hvg_second_level table n_batches target_genes (fuel : nat) :
  Z.of_nat (above table (n_batches - 1)) <= target_genes
  <= Z.of_nat (above table (n_batches - 1) + exactly table (n_batches - 1)) ->
  select_hvg (S fuel) table n_batches target_genes
  = Returned
      (index (sort_values (dispersions_where (fun n => n > n_batches - 1) table))
       ++ index (take (Z.to_nat (target_genes - Z.of_nat (above table (n_batches - 1))))
                   (sort_values (dispersions_where (fun n => n = n_batches - 1) table)))).
Proof.
  intros [Hlo Hhi]. unfold select_hvg.
  rewrite length_sort_values. fold (above table (n_batches - 1)).
  destruct (Z.ltb_spec target_genes (Z.of_nat (above table (n_batches - 1)))); [lia|].
  cbn [fill_up enough]. unfold fill_step at 1. cbn [hvg not_n_batches enough].
  rewrite length_index, length_sort_values.
  fold (above table (n_batches - 1)). fold (exactly table (n_batches - 1)).
  destruct (Z.ltb_spec (Z.of_nat (exactly table (n_batches - 1)))
              (target_genes - Z.of_nat (above table (n_batches - 1)))); [lia|].
  rewrite fill_up_enough by reflexivity. cbn.
  rewrite slice_to_index by lia. reflexivity.
Qed.

Lemma lowest_nonneg table :
  Forall (fun r => 0 <= highly_variable_nbatches r) table -> lowest table = 0.
Proof.
  unfold lowest. induction 1 as [|r t Hr _ IH]; [reflexivity|].
  rewrite fmap_cons. cbn [foldr]. lia.
Qed.

(** C2. When the table has at least [target_genes] genes, the fill-up loop
    of [hvg_batch] reaches [enough] after finitely many levels: it returns
    with any fuel from [enough_fuel] on, and the level it stops at is
    bounded by the lowest batch count of the table. *)
Theorem fill_up_terminates table n_batches target_genes :
  target_genes <= Z.of_nat (length table) ->
  let nbatch1_dispersions :=
    sort_values (dispersions_where (fun n => n > n_batches - 1) table) in
  exists st,
    (forall extra : nat,
       fill_up (enough_fuel table n_batches + extra) table n_batches target_genes
         {| hvg := index nbatch1_dispersions; not_n_batches := 1; enough := false |}
       = Returned st)
    /\ enough st = true
    /\ 1 <= not_n_batches st <= Z.max 1 (n_batches - lowest table).
Proof.
  intros Htotal nbatch1_dispersions.
  destruct (Z.le_gt_cases (Z.of_nat (length nbatch1_dispersions)) target_genes) as [Hge|Hlt].
  - destruct (fill_up_returns table n_batches target_genes Htotal
                (enough_fuel table n_batches)
                {| hvg := index nbatch1_dispersions; not_n_batches := 1; enough := false |})
      as (st & Hret & Hen & _ & Hlevels); cbn [hvg not_n_batches enough] in *.
    + reflexivity.
    + unfold nbatch1_dispersions. rewrite length_index, length_sort_values. reflexivity.
    + rewrite length_index. exact Hge.
    + unfold enough_fuel. lia.
    + unfold enough_fuel. lia.
    + exists st. split; [|split; [exact Hen | exact Hlevels]].
      intros extra. apply fill_up_more_fuel. exact Hret.
  - eexists. split; [|split].
    + intros extra.
      assert (Hfuel : exists fuel, (enough_fuel table n_batches + extra)%nat = S fuel).
      { exists (enough_fuel table n_batches + extra - 1)%nat. unfold enough_fuel. lia. }
      destruct Hfuel as [fuel ->].
      cbn [fill_up enough]. unfold fill_step. cbn [hvg not_n_batches enough].
      rewrite length_index.
      destruct (Z.ltb_spec (Z.of_nat (length (dispersions_where
                  (fun n => n = n_batches - 1) table)))
                  (target_genes - Z.of_nat (length nbatch1_dispersions))); [lia|].
      apply fill_up_enough. reflexivity.
    + reflexivity.
    + cbn [not_n_batches]. lia.
Qed.

Lemma filter_ext_Forall {A} (P Q : A -> Prop) `{!forall x, Decision (P x)}
    `{!forall x, Decision (Q x)} (l : list A) :
  Forall (fun x => P x <-> Q x) l -> filter P l = filter Q l.
Proof.
  induction 1 as [|x l Hx _ IH]; [reflexivity|].
  rewrite !filter_cons, IH. repeat case_decide; tauto.
Qed.

Lemma dispersions_where_top table (n_batches : Z) :
  Forall (fun r => highly_variable_nbatches r <= n_batches) table ->
  dispersions_where (fun n => n > n_batches - 1) table
  = dispersions_where (fun n => n = n_batches) table.
Proof.
  intros Hrange. unfold dispersions_where. f_equal.
  apply filter_ext_Forall. eapply Forall_impl; [exact Hrange|].
  intros r Hr. simpl in *. lia.
Qed.

(** ** hvg_batch: the call *)

Lemma length_zip_rows (names : list string) :
  forall (ds : list (option Q)) (ns : list Z),
  length ds = length names -> length ns = length names ->
  length (zip_rows names ds ns) = length names.
Proof.
  induction names as [|g names IH]; intros [|d ds] [|n ns] Hd Hn;
    simpl in *; try discriminate; try reflexivity.
  f_equal. apply IH; lia.
Qed.

Lemma copy_fresh (σ : gmap positive AnnData) (a : AnnData) : σ !! (copy σ a).1 = None.
Proof. unfold copy. cbn. apply not_elem_of_dom, is_fresh. Qed.

Section hvg_batch_properties.
Variable highly_variable_genes :
  AnnData -> string -> Z -> Z -> string -> gmap string var_column.

(** With [adataOut=False], a matrix that has the batch column, and the two
    columns written by the statistics routine, the call returns what the
    selection returns on the table of these columns. *)
Lemma hvg_batch_gene_list (fuel : nat) (σ : gmap positive AnnData) (adata : positive)
    (a : AnnData) (batch_key : string) (col : obs_column)
    (ds : list (option Q)) (ns : list Z) (target_genes : Z) (flavor : string) (n_bins : Z) :
  σ !! adata = Some a ->
  obs a !! batch_key = Some col ->
  highly_variable_genes a flavor target_genes n_bins batch_key !! "dispersions_norm"%string
    = Some (FloatColumn ds) ->
  highly_variable_genes a flavor target_genes n_bins batch_key
    !! "highly_variable_nbatches"%string = Some (IntColumn ns) ->
  exists σ',
    hvg_batch highly_variable_genes fuel σ adata (Some batch_key) target_genes flavor
      n_bins false
    = (GeneList <$> select_hvg fuel (zip_rows (var_names a) ds ns)
                      (Z.of_nat (length (categories col))) target_genes, σ').
Proof.
  intros Hσ Hobs Hds Hns. unfold hvg_batch. rewrite Hσ. unfold copy.
  rewrite Hobs. unfold sc_pp_highly_variable_genes.
  rewrite !lookup_insert_eq. unfold var_table. cbn [var var_names].
  rewrite (lookup_union_Some_l _ _ _ _ Hds), (lookup_union_Some_l _ _ _ _ Hns).
  cbn. destruct (select_hvg _ _ _ _); eexists; reflexivity.
Qed.

(** C1. When the matrix has at least [target_genes] genes and the
    statistics routine gives every gene a batch count and a normalised
    dispersion, [hvg_batch] returns a list of exactly [target_genes]
    genes. *)
Theorem hvg_batch_length (σ : gmap positive AnnData) (adata : positive)
    (a : AnnData) (batch_key : string) (col : obs_column)
    (ds : list (option Q)) (ns : list Z) (target_genes : Z) (flavor : string) (n_bins : Z) :
  σ !! adata = Some a ->
  obs a !! batch_key = Some col ->
  highly_variable_genes a flavor target_genes n_bins batch_key !! "dispersions_norm"%string
    = Some (FloatColumn ds) ->
  highly_variable_genes a flavor target_genes n_bins batch_key
    !! "highly_variable_nbatches"%string = Some (IntColumn ns) ->
  length ds = n_vars a ->
  length ns = n_vars a ->
  0 <= target_genes <= Z.of_nat (n_vars a) ->
  exists (fuel : nat) genes,
    (forall extra : nat, exists σ',
       hvg_batch highly_variable_genes (fuel + extra) σ adata (Some batch_key) target_genes
         flavor n_bins false
       = (Returned (GeneList genes), σ'))
    /\ Z.of_nat (length genes) = target_genes.
Proof.
  intros Hσ Hobs Hds Hns Hlds Hlns Htarget.
  set (table := zip_rows (var_names a) ds ns).
  set (n_batches := Z.of_nat (length (categories col))).
  assert (Hlen : length table = n_vars a) by (apply length_zip_rows; assumption).
  destruct (select_hvg_length table n_batches target_genes) as (genes & Hrun & Hgenes).
  { rewrite Hlen. exact Htarget. }
  exists (enough_fuel table n_batches), genes. split; [|exact Hgenes].
  intros extra.
  destruct (hvg_batch_gene_list (enough_fuel table n_batches + extra) σ adata a batch_key
              col ds ns target_genes flavor n_bins Hσ Hobs Hds Hns) as (σ' & Hcall).
  exists σ'. rewrite Hcall. fold table n_batches. rewrite Hrun. reflexivity.
Qed.

(** C3. Three batches, five genes flagged in all of them, ten flagged in
    exactly two, and [target_genes = 12]: the list returned holds the five
    genes of all batches, then the seven genes of highest dispersion among
    the ten, twelve genes in all. *)
Theorem hvg_batch_two_levels (fuel : nat) (σ : gmap positive AnnData) (adata : positive)
    (a : AnnData) (batch_key : string) (col : obs_column)
    (ds : list (option Q)) (ns : list Z) (flavor : string) (n_bins : Z) :
  σ !! adata = Some a ->
  obs a !! batch_key = Some col ->
  length (categories col) = 3%nat ->
  highly_variable_genes a flavor 12 n_bins batch_key !! "dispersions_norm"%string
    = Some (FloatColumn ds) ->
  highly_variable_genes a flavor 12 n_bins batch_key !! "highly_variable_nbatches"%string
    = Some (IntColumn ns) ->
  let table := zip_rows (var_names a) ds ns in
  Forall (fun r => highly_variable_nbatches r <= 3) table ->
  length (dispersions_where (fun n => n = 3) table) = 5%nat ->
  length (dispersions_where (fun n => n = 2) table) = 10%nat ->
  exists σ' top chosen rest,
    hvg_batch highly_variable_genes (S fuel) σ adata (Some batch_key) 12 flavor n_bins false
    = (Returned (GeneList (index top ++ index chosen)), σ')
    /\ top ≡ₚ dispersions_where (fun n => n = 3) table
    /\ chosen ++ rest ≡ₚ dispersions_where (fun n => n = 2) table
    /\ length chosen = 7%nat
    /\ (forall p q, p ∈ chosen -> q ∈ rest -> comes_before p q)
    /\ length (index top ++ index chosen) = 12%nat.
Proof.
  intros Hσ Hobs Hcat Hds Hns table Hrange Hfive Hten.
  destruct (hvg_batch_gene_list (S fuel) σ adata a batch_key col ds ns 12 flavor n_bins
              Hσ Hobs Hds Hns) as (σ' & Hcall).
  rewrite Hcat in Hcall. fold table in Hcall. change (Z.of_nat 3) with 3 in Hcall.
  pose proof (dispersions_where_top table 3 Hrange) as Htop.
  assert (Habove : above table (3 - 1) = 5%nat) by (unfold above; rewrite Htop; exact Hfive).
  assert (Hexact : exactly table (3 - 1) = 10%nat) by exact Hten.
  rewrite (select_hvg_second_level table 3 12 fuel) in Hcall by (rewrite Habove, Hexact; lia).
  rewrite Habove, Htop in Hcall. change (Z.to_nat (12 - Z.of_nat 5)) with 7%nat in Hcall.
  change (3 - 1) with 2 in Hcall.
  exists σ', (sort_values (dispersions_where (fun n => n = 3) table)),
    (take 7 (sort_values (dispersions_where (fun n => n = 2) table))),
    (drop 7 (sort_values (dispersions_where (fun n => n = 2) table))).
  split; [exact Hcall|]. split; [apply sort_values_Permutation|].
  split; [rewrite take_drop; apply sort_values_Permutation|].
  assert (Hseven : length (take 7 (sort_values (dispersions_where (fun n => n = 2) table)))
                   = 7%nat).
  { rewrite length_take, length_sort_values, Hten. reflexivity. }
  split; [exact Hseven|]. split.
  - intros p q. apply sort_values_take_drop.
  - rewrite length_app, !length_index, Hseven, length_sort_values, Hfive. reflexivity.
Qed.

(** C9. With [adataOut=False] the call leaves the matrix it was given, and
    every other object of the store, as they were: the statistics are
    written into a copy, and the value is a list of genes, never a
    matrix. *)
Theorem hvg_batch_leaves_input_unchanged (fuel : nat) (σ : gmap positive AnnData)
    (adata : positive) (batch_key : option string) (target_genes : Z) (flavor : string)
    (n_bins : Z) :
  let out := hvg_batch highly_variable_genes fuel σ adata batch_key target_genes flavor
               n_bins false in
  out.2 !! adata = σ !! adata
  /\ σ ⊆ out.2
  /\ (forall r, out.1 <> Returned (Subset r)).
Proof.
  cbv zeta. unfold hvg_batch.
  destruct (σ !! adata) as [a|] eqn:Hσ.
  2:{ cbn. rewrite Hσ. split; [reflexivity|]. split; [reflexivity | discriminate]. }
  pose proof (copy_fresh σ a) as Hfresh. unfold copy in *. cbn [fst] in Hfresh.
  set (r := fresh (dom σ)) in *.
  assert (Hne : r <> adata) by congruence.
  assert (Hsub : forall x, σ ⊆ <[r := x]> σ) by (intros x; apply insert_subseteq; exact Hfresh).
  assert (Hget : forall x, <[r := x]> σ !! adata = Some a).
  { intros x. rewrite lookup_insert_ne by exact Hne. exact Hσ. }
  destruct batch_key as [batch_key|]; cbn [fst snd].
  2:{ split; [apply Hget|]. split; [apply Hsub | discriminate]. }
  destruct (obs a !! batch_key) as [col|]; cbn [fst snd].
  2:{ split; [apply Hget|]. split; [apply Hsub | discriminate]. }
  unfold sc_pp_highly_variable_genes. rewrite !lookup_insert_eq, insert_insert_eq.
  destruct (_ ≫= _) as [genes|e|]; cbn [fst snd];
    (split; [apply Hget|]; split; [apply Hsub | discriminate]).
Qed.

(** With [adataOut=True] the statistics are written into the matrix that
    was given: the caller sees the new columns. *)
Lemma hvg_batch_adataOut_in_place (fuel : nat) (σ : gmap positive AnnData) (adata : positive)
    (a : AnnData) (batch_key : string) (col : obs_column) (target_genes : Z)
    (flavor : string) (n_bins : Z) :
  σ !! adata = Some a ->
  obs a !! batch_key = Some col ->
  exists a',
    (hvg_batch highly_variable_genes fuel σ adata (Some batch_key) target_genes flavor
       n_bins true).2 !! adata = Some a'
    /\ var a' = highly_variable_genes a flavor target_genes n_bins batch_key ∪ var a.
Proof.
  intros Hσ Hobs. unfold hvg_batch. rewrite Hσ, Hobs.
  unfold sc_pp_highly_variable_genes. rewrite Hσ, lookup_insert_eq.
  exists {| X := X a; obs := obs a; var_names := var_names a;
            var := highly_variable_genes a flavor target_genes n_bins batch_key
                   ∪ var a |}.
  split; [|reflexivity].
  destruct (_ ≫= _) as [genes|e|]; cbn [fst snd]; try apply lookup_insert_eq.
  destruct (subset_vars _ _) as [sub|e|]; cbn [fst snd]; try apply lookup_insert_eq.
  unfold copy. cbn [snd]. rewrite lookup_insert_ne; [apply lookup_insert_eq|].
  intros Heq. pose proof (is_fresh (dom (<[adata := {| X := X a; obs := obs a;
                var_names := var_names a;
                var := highly_variable_genes a flavor target_genes n_bins batch_key
                       ∪ var a |}]> σ))) as Hf.
  rewrite Heq in Hf. apply Hf. apply elem_of_dom. rewrite lookup_insert_eq. eauto.
Qed.

End hvg_batch_properties.

Lemma fill_up_terminates_witness :
  exists st,
    fill_up (enough_fuel sample_table 3) sample_table 3 12
      {| hvg := index (sort_values (dispersions_where (fun n => n > 3 - 1) sample_table));
         not_n_batches := 1; enough := false |}
    = Returned st
    /\ enough st = true /\ not_n_batches st <= 3.
Proof.
  destruct (fill_up_terminates sample_table 3 12) as (st & Hrun & Hen & Hlevels).
  - vm_compute. discriminate.
  - exists st. split; [|split; [exact Hen|]].
    + specialize (Hrun O). rewrite Nat.add_0_r in Hrun. exact Hrun.
    + change (lowest sample_table) with 0 in Hlevels. lia.
Defined.

Lemma hvg_batch_length_witness :
  exists (fuel : nat) genes,
    (forall extra : nat, exists σ',
       hvg_batch sample_statistics (fuel + extra) sample_store 1%positive (Some "batch"%string)
         12 "cell_ranger"%string 20 false
       = (Returned (GeneList genes), σ'))
    /\ Z.of_nat (length genes) = 12.
Proof.
  apply (hvg_batch_length sample_statistics sample_store 1%positive sixteen_genes
           "batch"%string batch_column sample_dispersions sample_nbatches 12
           "cell_ranger"%string 20); try reflexivity.
  vm_compute. split; discriminate.
Defined.

Lemma hvg_batch_two_levels_witness :
  exists σ' genes,
    hvg_batch sample_statistics 1 sample_store 1%positive (Some "batch"%string)
      12 "cell_ranger"%string 20 false
    = (Returned (GeneList genes), σ')
    /\ length genes = 12%nat.
Proof.
  destruct (hvg_batch_two_levels sample_statistics O sample_store 1%positive sixteen_genes
              "batch"%string batch_column sample_dispersions sample_nbatches
              "cell_ranger"%string 20)
    as (σ' & top & chosen & rest & Hrun & _ & _ & _ & _ & Hlen); try reflexivity.
  - apply (bool_decide_unpack _). vm_compute. exact I.
  - exists σ', (index top ++ index chosen). split; [exact Hrun | exact Hlen].
Defined.

(** The list that the code computes on the sample table. *)
Example hvg_batch_sample :
  (hvg_batch sample_statistics 1 sample_store 1%positive (Some "batch"%string)
     12 "cell_ranger"%string 20 false).1
  = Returned (GeneList ["g01"; "g02"; "g03"; "g04"; "g05";
                        "g06"; "g07"; "g08"; "g09"; "g10"; "g11"; "g12"]%string).
Proof. vm_compute. reflexivity. Qed.

(** Seventeen genes are asked of a table of sixteen: the loop goes on
    below level 0 without end. *)
Example hvg_batch_sample_too_few (fuel : nat) :
  select_hvg fuel sample_table 3 17 = StillRunning.
Proof. apply select_hvg_diverges. vm_compute. reflexivity. Qed.

(** A negative [target_genes] cuts the sorted top level from the end. *)
Example select_hvg_negative_target :
  select_hvg 0 sample_table 3 (-2) = Returned ["g01"; "g02"; "g03"]%string.
Proof. vm_compute. reflexivity. Qed.

(** ** compute_kernel and compute_mmd *)

(** C4. A kernel name other than ["rbf"], ["raphy"] and ["multi-scale-rbf"]
    makes [compute_kernel] fall through all branches: the call returns
    without a value and raises nothing, whatever [x] and [y] are. *)
Theorem compute_kernel_unrecognized (x y : Tensor) (kernel : string) (kw : kwargs) :
  kernel <> "rbf"%string ->
  kernel <> "raphy"%string ->
  kernel <> "multi-scale-rbf"%string ->
  compute_kernel x y kernel kw = Returned None.
Proof.
  intros H1 H2 H3. unfold compute_kernel.
  rewrite (decide_False _ _ H1), (decide_False _ _ H2), (decide_False _ _ H3).
  reflexivity.
Qed.

Lemma compute_kernel_unrecognized_witness :
  compute_kernel sample_tensor sample_tensor "linear" {| scales_kw := None |} = Returned None.
Proof.
  apply (compute_kernel_unrecognized sample_tensor sample_tensor "linear"
           {| scales_kw := None |}); discriminate.
Defined.

Lemma compute_kernel_unsupported (x y : Tensor) (kernel : string) (kw : kwargs) :
  ~ supported_kernel kernel -> compute_kernel x y kernel kw = Returned None.
Proof.
  intros H. unfold supported_kernel in H. unfold compute_kernel.
  repeat (destruct (decide (kernel = _)) as [Heq|_]; [tauto|]). reflexivity.
Qed.

(** X27. With a kernel name that [compute_kernel] does not know,
    [compute_mmd] raises [AttributeError]: the kernel is [None], and the
    first mean reads its [dtype]. *)
Lemma compute_mmd_unrecognized (x y : Tensor) (kernel : string) (kw : kwargs) :
  ~ supported_kernel kernel -> compute_mmd x y kernel kw = Raised AttributeError.
Proof.
  intros H. unfold compute_mmd.
  rewrite !compute_kernel_unsupported by exact H. reflexivity.
Qed.

Lemma broadcast_dim_same (d : nat) : broadcast_dim d d = Some d.
Proof. unfold broadcast_dim. rewrite decide_True by reflexivity. reflexivity. Qed.

(** On equal arguments every supported kernel returns a tensor. *)
Lemma compute_kernel_self (x : Tensor) (kernel : string) (kw : kwargs) :
  supported_kernel kernel ->
  exists t, compute_kernel x x kernel kw = Returned (Some t)
            /\ shape0 t = shape0 x /\ shape1 t = shape0 x.
Proof.
  intros [-> | [-> | ->]]; unfold compute_kernel, squared_distance;
    rewrite ?broadcast_dim_same; cbn.
  - destruct (decide (_ = _ :> nat)) as [_|Hne]; [|congruence].
    eexists. split; [reflexivity|]. split; reflexivity.
  - eexists. split; [reflexivity|]. split; reflexivity.
  - eexists. split; [reflexivity|]. split; reflexivity.
Qed.

(** The mean of a tensor that has an entry is a number. *)
Lemma K_mean_finite (t : Tensor) :
  (0 < shape0 t)%nat -> (0 < shape1 t)%nat -> exists m, K_mean t = Finite m.
Proof.
  intros H0 H1. unfold K_mean. destruct (decide _) as [Hz|_]; [nia|].
  eexists. reflexivity.
Qed.

(** C5. For every supported kernel and every tensor [x] that has a row (and,
    for ["rbf"], a column; for ["raphy"], no scale equal to 0), the
    discrepancy of [x] with itself is 0: the three means are the same number
    [m], and [m + m - 2 m] vanishes (exact arithmetic). *)
Theorem compute_mmd_self (x : Tensor) (kernel : string) (kw : kwargs) :
  supported_kernel kernel ->
  (0 < shape0 x)%nat ->
  (kernel = "rbf"%string -> (0 < shape1 x)%nat) ->
  (kernel = "raphy"%string -> Forall (fun s => s <> 0%R) (default [] (scales_kw kw))) ->
  compute_mmd x x kernel kw = Returned (Finite 0).
Proof.
  intros Hk Hrows _ _. destruct (compute_kernel_self x kernel kw Hk) as (t & Ht & H0 & H1).
  destruct (K_mean_finite t) as [m Hm]; [lia | lia |].
  unfold compute_mmd. rewrite Ht. cbn. rewrite Hm. cbn. do 2 f_equal. ring.
Qed.

Lemma compute_mmd_self_witness :
  compute_mmd sample_tensor sample_tensor "rbf" {| scales_kw := None |} = Returned (Finite 0).
Proof.
  apply (compute_mmd_self sample_tensor "rbf" {| scales_kw := None |}).
  - left. reflexivity.
  - cbn. lia.
  - intros _. cbn. lia.
  - intros H. discriminate H.
Defined.

(** On a tensor without rows every kernel is empty, its mean is 0/0 and the
    discrepancy is NaN. *)
Lemma compute_mmd_self_empty :
  supported_kernel "rbf"
  /\ compute_mmd empty_tensor empty_tensor "rbf" {| scales_kw := None |} = Returned NaN
  /\ Returned NaN <> Returned (Finite 0).
Proof.
  split; [left; reflexivity|]. split; [reflexivity | discriminate].
Qed.

Example compute_mmd_self_empty_kernels :
  compute_mmd empty_tensor empty_tensor "raphy" {| scales_kw := Some [1%R] |} = Returned NaN
  /\ compute_mmd empty_tensor empty_tensor "multi-scale-rbf" {| scales_kw := None |}
     = Returned NaN.
Proof. split; reflexivity. Qed.

Lemma sum_upto_zero (n : nat) (f : nat -> R) :
  (forall k, (k < n)%nat -> f k = 0%R) -> sum_upto n f = 0%R.
Proof.
  induction n as [|n IH]; intros Hf; [reflexivity|].
  cbn [sum_upto]. rewrite IH by (intros k Hk; apply Hf; lia).
  rewrite Hf by lia. ring.
Qed.

(** X28. The ["rbf"] kernel of a tensor that has a column with itself is 1
    on the diagonal. *)
Lemma compute_kernel_rbf_diagonal (x : Tensor) (kw : kwargs) :
  (0 < shape1 x)%nat ->
  exists t, compute_kernel x x "rbf" kw = Returned (Some t)
            /\ forall i, entry t i i = 1%R.
Proof.
  intros _. unfold compute_kernel. cbn. destruct (decide (_ = _ :> nat)) as [_|Hne]; [|congruence].
  eexists. split; [reflexivity|]. intros i. cbn [entry].
  rewrite sum_upto_zero.
  - unfold Rdiv. rewrite Rmult_0_l, Ropp_0, Rmult_0_l. apply exp_0.
  - intros k _. unfold Rminus. rewrite Rplus_opp_r. apply Rsqr_0.
Qed.

Lemma compute_kernel_rbf_diagonal_witness :
  exists t, compute_kernel sample_tensor sample_tensor "rbf" {| scales_kw := None |}
            = Returned (Some t)
            /\ entry t 1%nat 1%nat = 1%R.
Proof.
  destruct (compute_kernel_rbf_diagonal sample_tensor {| scales_kw := None |})
    as (t & Ht & Hdiag).
  - cbn. lia.
  - exists t. split; [exact Ht | apply Hdiag].
Defined.

(** ** sample_z *)

Lemma broadcast_index_lt (dim i : nat) : (i < dim)%nat -> broadcast_index dim i = i.
Proof. intros Hi. unfold broadcast_index. case_decide; lia. Qed.

Lemma sum_upto_nonneg (n : nat) (f : nat -> R) :
  (forall k, 0 <= f k)%R -> (0 <= sum_upto n f)%R.
Proof.
  intros Hf. induction n as [|n IH]; cbn [sum_upto]; [lra|].
  specialize (Hf n). lra.
Qed.

Lemma sum_upto_ge (n : nat) (f : nat -> R) (i : nat) :
  (forall k, 0 <= f k)%R -> (i < n)%nat -> (f i <= sum_upto n f)%R.
Proof.
  intros Hf. induction n as [|n IH]; intros Hi; [lia|].
  cbn [sum_upto]. destruct (decide (i = n)) as [->|Hne].
  - pose proof (sum_upto_nonneg n f Hf). lra.
  - specialize (IH ltac:(lia)). specialize (Hf n). lra.
Qed.

(** A bound on the absolute value of all the entries of a tensor. *)
Lemma entries_bounded (t : Tensor) :
  exists B : R, (0 < B)%R
    /\ forall i j, (i < shape0 t)%nat -> (j < shape1 t)%nat -> (Rabs (entry t i j) < B)%R.
Proof.
  exists (1 + sum_upto (shape0 t) (fun i => sum_upto (shape1 t) (fun j => Rabs (entry t i j))))%R.
  assert (Hrow : forall i, (0 <= sum_upto (shape1 t) (fun j => Rabs (entry t i j)))%R).
  { intros i. apply sum_upto_nonneg. intros j. apply Rabs_pos. }
  split.
  - pose proof (sum_upto_nonneg (shape0 t) _ Hrow). lra.
  - intros i j Hi Hj.
    pose proof (sum_upto_ge (shape0 t) _ i Hrow Hi) as H1.
    pose proof (sum_upto_ge (shape1 t) (fun j => Rabs (entry t i j)) j
                  (fun k => Rabs_pos _) Hj) as H2.
    cbn beta in *. lra.
Qed.

(** The value of [sample_z] on arguments of the same shape. *)
Lemma sample_z_value (g : NormalSource) (mu log_var : Tensor) :
  shape0 log_var = shape0 mu ->
  shape1 log_var = shape1 mu ->
  exists z,
    sample_z g (mu, log_var)
    = (Returned z, (random_normal g (shape0 mu) (shape1 mu)).2)
    /\ shape0 z = shape0 mu /\ shape1 z = shape1 mu
    /\ forall i j, (i < shape0 mu)%nat -> (j < shape1 mu)%nat ->
         entry z i j
         = (entry mu i j
            + exp (entry log_var i j / 2)
              * entry (random_normal g (shape0 mu) (shape1 mu)).1 i j)%R.
Proof.
  intros H0 H1. unfold sample_z, random_normal, elementwise, tensor_map.
  cbn [fst snd shape0 shape1 entry]. rewrite H0, H1, !broadcast_dim_same.
  cbn [mbind outcome_bind shape0 shape1 entry]. rewrite !broadcast_dim_same.
  eexists. split; [reflexivity|]. cbn [shape0 shape1 entry].
  split; [reflexivity|]. split; [reflexivity|].
  intros i j Hi Hj. rewrite !broadcast_index_lt by assumption. reflexivity.
Qed.

(** C8. [sample_z] draws a noise tensor [eps] of the shape of [mu] and
    returns [mu + exp(log_var / 2) * eps], entry by entry; the value depends
    on [mu], [log_var] and the drawn [eps] only; and it is as close to [mu]
    as wished once all entries of [log_var] are small enough. *)
Theorem sample_z_reparameterization (g : NormalSource) (mu log_var : Tensor) :
  shape0 log_var = shape0 mu ->
  shape1 log_var = shape1 mu ->
  let eps := (random_normal g (shape0 mu) (shape1 mu)).1 in
  shape0 eps = shape0 mu /\ shape1 eps = shape1 mu
  /\ (exists z,
        sample_z g (mu, log_var)
        = (Returned z, (random_normal g (shape0 mu) (shape1 mu)).2)
        /\ shape0 z = shape0 mu /\ shape1 z = shape1 mu
        /\ forall i j, (i < shape0 mu)%nat -> (j < shape1 mu)%nat ->
             entry z i j = (entry mu i j + exp (entry log_var i j / 2) * entry eps i j)%R)
  /\ (forall ε : R, (0 < ε)%R ->
      exists M : R,
        forall log_var' : Tensor,
          shape0 log_var' = shape0 mu ->
          shape1 log_var' = shape1 mu ->
          (forall i j, (i < shape0 mu)%nat -> (j < shape1 mu)%nat ->
             (entry log_var' i j < M)%R) ->
          exists z',
            (sample_z g (mu, log_var')).1 = Returned z'
            /\ forall i j, (i < shape0 mu)%nat -> (j < shape1 mu)%nat ->
                 (Rabs (entry z' i j - entry mu i j) < ε)%R).
Proof.
  intros H0 H1 eps.
  split; [reflexivity|]. split; [reflexivity|].
  split; [exact (sample_z_value g mu log_var H0 H1)|].
  intros ε Hε.
  destruct (entries_bounded eps) as (B & HB & Hbound).
  assert (Hratio : (0 < ε / B)%R) by (apply Rdiv_lt_0_compat; assumption).
  exists (2 * ln (ε / B))%R.
  intros log_var' H0' H1' Hsmall.
  destruct (sample_z_value g mu log_var' H0' H1') as (z' & Hrun & _ & _ & Hentry).
  exists z'. split; [rewrite Hrun; reflexivity|].
  intros i j Hi Hj. rewrite (Hentry i j Hi Hj). fold eps.
  replace (entry mu i j + exp (entry log_var' i j / 2) * entry eps i j - entry mu i j)%R
    with (exp (entry log_var' i j / 2) * entry eps i j)%R by ring.
  rewrite Rabs_mult, (Rabs_pos_eq (exp _)) by (left; apply exp_pos).
  assert (Hexp : (exp (entry log_var' i j / 2) < ε / B)%R).
  { rewrite <- (exp_ln (ε / B)) by exact Hratio.
    apply exp_increasing. specialize (Hsmall i j Hi Hj). lra. }
  specialize (Hbound i j Hi Hj).
  pose proof (exp_pos (entry log_var' i j / 2)) as Hpos.
  pose proof (Rabs_pos (entry eps i j)) as Habs.
  apply Rle_lt_trans with (exp (entry log_var' i j / 2) * B)%R.
  - apply Rmult_le_compat_l; lra.
  - assert (Hmul : (exp (entry log_var' i j / 2) * B < ε / B * B)%R)
      by (apply Rmult_lt_compat_r; assumption).
    assert (Heq : (ε / B * B = ε)%R) by (field; lra).
    lra.
Qed.

Lemma sample_z_reparameterization_witness :
  exists z,
    sample_z sample_normal_source (sample_tensor, sample_tensor)
    = (Returned z, (random_normal sample_normal_source 2 2).2)
    /\ entry z 1 1
       = (entry sample_tensor 1 1
          + exp (entry sample_tensor 1 1 / 2)
            * entry (random_normal sample_normal_source 2 2).1 1 1)%R.
Proof.
  destruct (sample_z_reparameterization sample_normal_source sample_tensor sample_tensor
              eq_refl eq_refl) as (_ & _ & (z & Hrun & _ & _ & Hentry) & _).
  exists z. split; [exact Hrun|]. apply Hentry; cbn; lia.
Defined.

(** * Further properties of [surgeon/utils.py] *)

(** ** create_dictionary on conditions that repeat *)

Lemma enumerate_fold_last (l : list string) :
  forall (k : nat) (m : gmap string Z) (c : string) (idx : Z),
  foldl (fun dictionary '(idx, condition) => <[condition := idx]> dictionary) m
        (imap (fun i a => (Z.of_nat (k + i), a)) l) !! c = Some idx
  <-> (exists i, idx = Z.of_nat (k + i) /\ l !! i = Some c
                 /\ forall j, (i < j)%nat -> l !! j <> Some c)
      \/ ((c ∉ l) /\ m !! c = Some idx).
Proof.
  induction l as [|x l IH]; intros k m c idx.
  - simpl. split.
    + intros H. right. split; [apply not_elem_of_nil | exact H].
    + intros [(i & _ & Hi & _) | [_ H]]; [discriminate Hi | exact H].
  - rewrite imap_cons. cbn [foldl].
    rewrite (imap_ext _ (fun i a => (Z.of_nat (S k + i), a))).
    2:{ intros i a _. simpl. do 2 f_equal. lia. }
    rewrite (IH (S k) _ c idx). split.
    + intros [(i & -> & Hi & Hlast) | [Hc Hm]].
      * left. exists (S i). split; [f_equal; lia|]. split; [exact Hi|].
        intros [|j] Hj; [lia|]. apply Hlast. lia.
      * destruct (decide (c = x)) as [->|Hne].
        -- rewrite lookup_insert_eq in Hm. injection Hm as <-.
           left. exists O. split; [f_equal; lia|]. split; [reflexivity|].
           intros [|j] Hj Hlook; [lia|]. apply Hc. eapply list_elem_of_lookup_2. exact Hlook.
        -- rewrite lookup_insert_ne in Hm by congruence.
           right. split; [|exact Hm]. rewrite not_elem_of_cons. auto.
    + intros [(i & -> & Hi & Hlast) | [Hc Hm]].
      * destruct i as [|i].
        -- simpl in Hi. injection Hi as ->. right. split.
           ++ intros [j Hj]%list_elem_of_lookup_1. exact (Hlast (S j) ltac:(lia) Hj).
           ++ rewrite lookup_insert_eq. reflexivity.
        -- left. exists i. split; [f_equal; lia|]. split; [exact Hi|].
           intros j Hj. apply (Hlast (S j)). lia.
      * apply not_elem_of_cons in Hc as [Hne Hc]. right. split; [exact Hc|].
        rewrite lookup_insert_ne by congruence. exact Hm.
Qed.

(** X1. Whatever the conditions are, also when some repeat, a key of the
    dictionary is mapped to the last position at which it stands in the
    filtered sequence: a later entry overwrites an earlier one. *)
Theorem create_dictionary_last_position (conditions : list string)
    (target_conditions : target_arg) (c : string) (idx : Z) :
  let kept := filter (fun c => ~ excluded target_conditions c) conditions in
  create_dictionary conditions target_conditions !! c = Some idx
  <-> exists i : nat, idx = Z.of_nat i /\ kept !! i = Some c
                      /\ forall j, (i < j)%nat -> kept !! j <> Some c.
Proof.
  intros kept. unfold create_dictionary, enumerate.
  replace (filter _ conditions) with kept.
  2:{ unfold kept. destruct target_conditions; reflexivity. }
  rewrite (enumerate_fold_last kept O ∅ c idx). split.
  - intros [(i & -> & Hi) | [_ Hm]]; [eauto | rewrite lookup_empty in Hm; discriminate].
  - intros (i & -> & Hi). left. eauto.
Qed.

(** With a repeated condition the codes are no longer 0, 1, ...: here no
    key has the code 0. *)
Example create_dictionary_repeated :
  create_dictionary ["a"; "b"; "a"]%string (TargetList [])
  = {[ "a"%string := 2; "b"%string := 1 ]}.
Proof. apply (bool_decide_unpack _). vm_compute. exact I. Qed.

(** X2. The codes of the dictionary stay below the number of conditions
    that were kept, and no excluded condition is a key. *)
Theorem create_dictionary_codes_bounded (conditions : list string)
    (target_conditions : target_arg) (c : string) (idx : Z) :
  create_dictionary conditions target_conditions !! c = Some idx ->
  0 <= idx < Z.of_nat (length (filter (fun c => ~ excluded target_conditions c) conditions))
  /\ c ∈ conditions /\ ~ excluded target_conditions c.
Proof.
  intros H. unfold create_dictionary, enumerate in H.
  replace (filter _ conditions)
    with (filter (fun c => ~ excluded target_conditions c) conditions) in H
    by (destruct target_conditions; reflexivity).
  apply (enumerate_fold_last _ O ∅ c idx) in H
    as [(i & -> & Hi & _) | [_ Hm]]; [|rewrite lookup_empty in Hm; discriminate].
  pose proof (lookup_lt_Some _ _ _ Hi) as Hlt.
  apply list_elem_of_lookup_2, list_elem_of_filter in Hi as [Hex Hin].
  split; [lia|]. split; assumption.
Qed.

Lemma create_dictionary_codes_bounded_witness :
  0 <= 1 < Z.of_nat (length (filter (fun c => ~ excluded (OneTarget "b"%string) c)
                               ["a"; "b"; "c"]%string))
  /\ "c"%string ∈ ["a"; "b"; "c"]%string /\ ~ excluded (OneTarget "b"%string) "c"%string.
Proof.
  apply (create_dictionary_codes_bounded ["a"; "b"; "c"]%string (OneTarget "b"%string)
           "c"%string 1).
  reflexivity.
Defined.

(** ** label_encoder: the dictionary of create_dictionary *)

Lemma label_encoder_dict_labels (adata : AnnData) (d : gmap string Z) (condition_key : string)
    (col : obs_column) :
  obs adata !! condition_key = Some col ->
  length (values col) = n_obs adata ->
  (forall c code, d !! c = Some code -> Z.abs code <= 2 ^ 53) ->
  exists labels,
    label_encoder adata (DictEncoder d) condition_key = Returned (labels, DictEncoder d)
    /\ forall i v, values col !! i = Some v -> labels !! i = Some [default 0 (d !! v)].
Proof.
  intros Hcol Hlen Hcodes.
  destruct (encode_items_lookup adata condition_key col (map_to_list d) Hcol
              (NoDup_fst_map_to_list d) (map_to_list_codes d Hcodes)
              (replicate (n_obs adata) 0))
    as (labels & Hrun & _ & Hget).
  { rewrite length_replicate. lia. }
  exists (reshape_column labels). split.
  - unfold label_encoder. rewrite Hrun. reflexivity.
  - intros i v Hv.
    assert (Hi : (i < n_obs adata)%nat) by (apply lookup_lt_Some in Hv; lia).
    destruct (Hget i v 0 Hv) as [Hkey Hmiss].
    { apply lookup_replicate_2. exact Hi. }
    unfold reshape_column. rewrite list_lookup_fmap.
    destruct (d !! v) as [code|] eqn:Hd; simpl.
    + rewrite (Hkey code) by (apply elem_of_map_to_list; exact Hd). reflexivity.
    + rewrite Hmiss; [reflexivity|].
      intros Hin. apply list_elem_of_fmap in Hin as ([k c] & -> & Hin).
      apply elem_of_map_to_list in Hin. simpl in Hd. congruence.
Qed.

(** X3. Encoding with the dictionary of [create_dictionary]: a row whose
    condition was kept gets the position of the condition, and a row whose
    condition is one of the target conditions gets the code 0, which is also
    the code of the first condition kept. The positions are held exactly by
    the [float64] label array: the conditions are at most [2^53]. *)
Theorem label_encoder_create_dictionary (adata : AnnData) (conditions : list string)
    (target_conditions : target_arg) (condition_key : string) (col : obs_column) :
  NoDup conditions ->
  Z.of_nat (length conditions) <= 2 ^ 53 ->
  obs adata !! condition_key = Some col ->
  length (values col) = n_obs adata ->
  let kept := filter (fun c => ~ excluded target_conditions c) conditions in
  let d := create_dictionary conditions target_conditions in
  exists labels,
    label_encoder adata (DictEncoder d) condition_key = Returned (labels, DictEncoder d)
    /\ (forall i v (pos : nat), values col !! i = Some v -> kept !! pos = Some v ->
          labels !! i = Some [Z.of_nat pos])
    /\ (forall i v, values col !! i = Some v -> excluded target_conditions v ->
          labels !! i = Some [0]).
Proof.
  intros Hnd Hsize Hcol Hlen kept d.
  assert (Hkept : NoDup kept) by (apply NoDup_filter; exact Hnd).
  assert (Hd : forall c idx, d !! c = Some idx
                 <-> exists i : nat, idx = Z.of_nat i /\ kept !! i = Some c).
  { intros c idx. unfold d, create_dictionary, enumerate.
    replace (filter _ conditions) with kept
      by (unfold kept; destruct target_conditions; reflexivity).
    rewrite (enumerate_fold_lookup kept O ∅ c idx Hkept). split.
    - intros [(i & -> & Hi) | [_ Hm]]; [eauto | rewrite lookup_empty in Hm; discriminate].
    - intros (i & -> & Hi). left. eauto. }
  assert (Hcodes : forall c code, d !! c = Some code -> Z.abs code <= 2 ^ 53).
  { intros c code Hc. apply Hd in Hc as (i & -> & Hi).
    apply lookup_lt_Some in Hi.
    pose proof (length_filter (fun c => ~ excluded target_conditions c) conditions) as Hle.
    fold kept in Hle. lia. }
  destruct (label_encoder_dict_labels adata d condition_key col Hcol Hlen Hcodes)
    as (labels & Hrun & Hget).
  exists labels. split; [exact Hrun|]. split.
  - intros i v pos Hv Hpos. rewrite (Hget i v Hv).
    assert (Hlook : d !! v = Some (Z.of_nat pos)) by (apply Hd; eauto).
    rewrite Hlook. reflexivity.
  - intros i v Hv Hex. rewrite (Hget i v Hv).
    destruct (d !! v) as [idx|] eqn:Hlook; [|reflexivity].
    apply Hd in Hlook as (pos & _ & Hpos).
    apply list_elem_of_lookup_2, list_elem_of_filter in Hpos as [Hnot _].
    contradiction.
Qed.

Lemma label_encoder_create_dictionary_witness :
  exists labels,
    label_encoder three_cells
      (DictEncoder (create_dictionary ["ctrl"; "stim"; "other"]%string
                      (OneTarget "stim"%string)))
      "condition"%string
    = Returned (labels, DictEncoder (create_dictionary ["ctrl"; "stim"; "other"]%string
                                       (OneTarget "stim"%string)))
    /\ labels !! 0%nat = Some [0] /\ labels !! 1%nat = Some [0] /\ labels !! 2%nat = Some [1].
Proof.
  destruct (label_encoder_create_dictionary three_cells ["ctrl"; "stim"; "other"]%string
              (OneTarget "stim"%string) "condition"%string
              {| values := ["ctrl"; "stim"; "other"]%string;
                 categories := ["ctrl"; "other"; "stim"]%string |})
    as (labels & Hrun & Hkept & Htarget).
  - apply (bool_decide_unpack _). vm_compute. exact I.
  - vm_compute. discriminate.
  - reflexivity.
  - reflexivity.
  - exists labels. split; [exact Hrun|]. split; [|split].
    + apply (Hkept 0%nat "ctrl"%string 0%nat); reflexivity.
    + apply (Htarget 1%nat "stim"%string); [reflexivity|].
      apply (bool_decide_unpack _). vm_compute. exact I.
    + apply (Hkept 2%nat "other"%string 1%nat); reflexivity.
Defined.

(** ** label_encoder: fitting and reusing an encoder *)

Lemma index_of_Some (c : string) (classes : list string) (k : nat) :
  index_of c classes = Some k -> classes !! k = Some c.
Proof.
  revert k. induction classes as [|c' rest IH]; intros k H; [discriminate|].
  simpl in H. destruct (decide (c = c')) as [->|Hne].
  - injection H as <-. reflexivity.
  - destruct (index_of c rest) as [k'|]; [|discriminate].
    injection H as <-. simpl. apply IH. reflexivity.
Qed.

Lemma index_of_elem (c : string) (classes : list string) :
  c ∈ classes -> is_Some (index_of c classes).
Proof.
  induction 1 as [c rest | c c' rest _ IH]; simpl.
  - rewrite decide_True by reflexivity. eauto.
  - destruct (decide (c = c')); [eauto|]. destruct IH as [k ->]. simpl. eauto.
Qed.

Lemma index_of_not_elem (c : string) (classes : list string) :
  c ∉ classes -> index_of c classes = None.
Proof.
  intros Hc. destruct (index_of c classes) as [k|] eqn:E; [|reflexivity].
  apply index_of_Some, list_elem_of_lookup_2 in E. contradiction.
Qed.

Lemma LabelEncoder_transform_seen (le : LabelEncoder) (y : list string) :
  (forall v, v ∈ y -> v ∈ classes_ le) ->
  exists codes,
    LabelEncoder_transform le y = Returned codes
    /\ length codes = length y
    /\ forall i v, y !! i = Some v ->
         exists k : nat, codes !! i = Some (Z.of_nat k)
                         /\ index_of v (classes_ le) = Some k.
Proof.
  intros Hseen. unfold LabelEncoder_transform.
  destruct (mapM (fun c => index_of c (classes_ le)) y) as [codes|] eqn:E.
  - exists (Z.of_nat <$> codes). split; [reflexivity|].
    pose proof (mapM_Some_1 _ _ _ E) as Hall. split.
    + rewrite length_fmap. symmetry. exact (Forall2_length _ _ _ Hall).
    + intros i v Hv.
      destruct (Forall2_lookup_l _ _ _ _ _ Hall Hv) as (k & Hk & Hidx).
      exists k. split; [|exact Hidx]. rewrite list_lookup_fmap, Hk. reflexivity.
  - exfalso. apply mapM_None_1, Exists_exists in E as (v & Hv & Hnone).
    destruct (index_of_elem v (classes_ le) (Hseen v Hv)) as [k Hk]. congruence.
Qed.

Lemma LabelEncoder_transform_unseen (le : LabelEncoder) (y : list string) (v : string) :
  v ∈ y -> v ∉ classes_ le -> LabelEncoder_transform le y = Raised ValueError.
Proof.
  intros Hv Hnew. unfold LabelEncoder_transform.
  rewrite (mapM_None_2 (fun c => index_of c (classes_ le)) y); [reflexivity|].
  apply Exists_exists. exists v. split; [exact Hv | apply index_of_not_elem; exact Hnew].
Qed.

Lemma string_le_total : Total string_le.
Proof. intros a b. apply String.leb_total. Qed.

Lemma LabelEncoder_fit_classes (y : list string) :
  NoDup (classes_ (LabelEncoder_fit y))
  /\ Sorted string_le (classes_ (LabelEncoder_fit y))
  /\ forall v, v ∈ classes_ (LabelEncoder_fit y) <-> v ∈ y.
Proof.
  unfold LabelEncoder_fit. cbn [classes_]. split; [|split].
  - rewrite merge_sort_Permutation. apply NoDup_remove_dups.
  - apply (@Sorted_merge_sort _ string_le _ string_le_total).
  - intros v. rewrite merge_sort_Permutation. apply elem_of_remove_dups.
Qed.

(** X4. Without an encoder, [label_encoder] fits one on the column: its
    classes are the distinct conditions of the column, sorted and without
    repetition, and the code of every row is the position of its condition
    among the classes. *)
Theorem label_encoder_fit_transform (adata : AnnData) (condition_key : string)
    (col : obs_column) :
  obs adata !! condition_key = Some col ->
  exists labels le,
    label_encoder adata NoEncoder condition_key = Returned (labels, FittedEncoder le)
    /\ NoDup (classes_ le)
    /\ Sorted string_le (classes_ le)
    /\ (forall v, v ∈ classes_ le <-> v ∈ values col)
    /\ length labels = length (values col)
    /\ forall i v, values col !! i = Some v ->
         exists k : nat, labels !! i = Some [Z.of_nat k] /\ classes_ le !! k = Some v.
Proof.
  intros Hcol.
  destruct (LabelEncoder_fit_classes (values col)) as (Hnd & Hsorted & Hmem).
  destruct (LabelEncoder_transform_seen (LabelEncoder_fit (values col)) (values col))
    as (codes & Hrun & Hlen & Hcodes).
  { intros v Hv. apply Hmem. exact Hv. }
  exists (reshape_column codes), (LabelEncoder_fit (values col)).
  split; [|split; [exact Hnd | split; [exact Hsorted | split; [exact Hmem | split]]]].
  - unfold label_encoder, obs_get. rewrite Hcol. cbn. rewrite Hrun. reflexivity.
  - unfold reshape_column. rewrite length_fmap. exact Hlen.
  - intros i v Hv. destruct (Hcodes i v Hv) as (k & Hk & Hidx).
    exists k. split; [|apply index_of_Some; exact Hidx].
    unfold reshape_column. rewrite list_lookup_fmap, Hk. reflexivity.
Qed.

Lemma label_encoder_fit_transform_witness :
  exists labels le,
    label_encoder three_cells NoEncoder "condition"%string
    = Returned (labels, FittedEncoder le)
    /\ exists k : nat, labels !! 1%nat = Some [Z.of_nat k]
                       /\ classes_ le !! k = Some "stim"%string.
Proof.
  destruct (label_encoder_fit_transform three_cells "condition"%string
              {| values := ["ctrl"; "stim"; "other"]%string;
                 categories := ["ctrl"; "other"; "stim"]%string |} eq_refl)
    as (labels & le & Hrun & _ & _ & _ & _ & Hcode).
  exists labels, le. split; [exact Hrun|].
  apply (Hcode 1%nat "stim"%string). reflexivity.
Defined.

(** The codes follow the order of the strings, not the order of
    appearance. *)
Example label_encoder_fit_sample :
  label_encoder three_cells NoEncoder "condition"%string
  = Returned ([[0]; [2]; [1]],
              FittedEncoder {| classes_ := ["ctrl"; "other"; "stim"]%string |}).
Proof. vm_compute. reflexivity. Qed.

(** X5. The encoder returned by a first call can be passed to a second
    call on data whose conditions all occurred in the first: the second call
    does not fit again, and a condition gets the same code in both. *)
Theorem label_encoder_reuse (adata1 adata2 : AnnData) (condition_key : string)
    (col1 col2 : obs_column) (labels1 : list (list Z)) (enc : encoder_arg) :
  obs adata1 !! condition_key = Some col1 ->
  obs adata2 !! condition_key = Some col2 ->
  label_encoder adata1 NoEncoder condition_key = Returned (labels1, enc) ->
  (forall v, v ∈ values col2 -> v ∈ values col1) ->
  exists labels2,
    label_encoder adata2 enc condition_key = Returned (labels2, enc)
    /\ length labels2 = length (values col2)
    /\ forall i j v, values col1 !! i = Some v -> values col2 !! j = Some v ->
         labels2 !! j = labels1 !! i.
Proof.
  intros Hcol1 Hcol2 Hfirst Hsub.
  destruct (LabelEncoder_fit_classes (values col1)) as (_ & _ & Hmem).
  destruct (LabelEncoder_transform_seen (LabelEncoder_fit (values col1)) (values col1))
    as (codes1 & Hrun1 & _ & Hcodes1).
  { intros v Hv. apply Hmem. exact Hv. }
  destruct (LabelEncoder_transform_seen (LabelEncoder_fit (values col1)) (values col2))
    as (codes2 & Hrun2 & Hlen2 & Hcodes2).
  { intros v Hv. apply Hmem, Hsub. exact Hv. }
  unfold label_encoder, obs_get in Hfirst. rewrite Hcol1 in Hfirst. cbn in Hfirst.
  rewrite Hrun1 in Hfirst. cbn in Hfirst. injection Hfirst as <- <-.
  exists (reshape_column codes2). split; [|split].
  - unfold label_encoder, obs_get. rewrite Hcol2. cbn. rewrite Hrun2. reflexivity.
  - unfold reshape_column. rewrite length_fmap. exact Hlen2.
  - intros i j v Hi Hj.
    destruct (Hcodes1 i v Hi) as (k1 & Hk1 & Hidx1).
    destruct (Hcodes2 j v Hj) as (k2 & Hk2 & Hidx2).
    unfold reshape_column. rewrite !list_lookup_fmap, Hk1, Hk2. congruence.
Qed.

Lemma label_encoder_reuse_witness :
  exists labels2,
    label_encoder two_cells
      (FittedEncoder {| classes_ := ["ctrl"; "other"; "stim"]%string |}) "condition"%string
    = Returned (labels2, FittedEncoder {| classes_ := ["ctrl"; "other"; "stim"]%string |})
    /\ labels2 !! 0%nat = Some [2].
Proof.
  destruct (label_encoder_reuse three_cells two_cells "condition"%string
              {| values := ["ctrl"; "stim"; "other"]%string;
                 categories := ["ctrl"; "other"; "stim"]%string |}
              {| values := ["stim"; "ctrl"]%string;
                 categories := ["ctrl"; "stim"]%string |}
              [[0]; [2]; [1]]
              (FittedEncoder {| classes_ := ["ctrl"; "other"; "stim"]%string |}))
    as (labels2 & Hrun & _ & Hsame).
  - reflexivity.
  - reflexivity.
  - vm_compute. reflexivity.
  - intros v Hv. cbn [values] in *.
    apply elem_of_cons in Hv as [->|Hv];
      [|apply elem_of_cons in Hv as [->|Hv]; [|apply elem_of_nil in Hv; destruct Hv]];
      apply (bool_decide_unpack _); vm_compute; exact I.
  - exists labels2. split; [exact Hrun|].
    rewrite (Hsame 1%nat 0%nat "stim"%string); reflexivity.
Defined.

(** X6. A fitted encoder raises on a condition that it has not seen: the
    call returns no labels at all. *)
Theorem label_encoder_unseen (adata : AnnData) (le : LabelEncoder) (condition_key : string)
    (col : obs_column) (v : string) :
  obs adata !! condition_key = Some col ->
  v ∈ values col ->
  v ∉ classes_ le ->
  label_encoder adata (FittedEncoder le) condition_key = Raised ValueError.
Proof.
  intros Hcol Hv Hnew. unfold label_encoder, obs_get. rewrite Hcol. cbn.
  rewrite (LabelEncoder_transform_unseen le (values col) v Hv Hnew). reflexivity.
Qed.

Lemma label_encoder_unseen_witness :
  label_encoder three_cells (FittedEncoder {| classes_ := ["ctrl"; "stim"]%string |})
    "condition"%string
  = Raised ValueError.
Proof.
  apply (label_encoder_unseen three_cells {| classes_ := ["ctrl"; "stim"]%string |}
           "condition"%string
           {| values := ["ctrl"; "stim"; "other"]%string;
              categories := ["ctrl"; "other"; "stim"]%string |} "other"%string).
  - reflexivity.
  - apply (bool_decide_unpack _). vm_compute. exact I.
  - apply (bool_decide_unpack _). vm_compute. exact I.
Defined.

(** X7. When [condition_key] is not a column of [adata.obs], the call
    raises [KeyError] with a fitted encoder, without an encoder, and with a
    mapping that has at least one entry; with an empty mapping the column is
    never read and the call returns all zeros. *)
Theorem label_encoder_missing_key (adata : AnnData) (condition_key : string) :
  obs adata !! condition_key = None ->
  (forall le, label_encoder adata (FittedEncoder le) condition_key
              = Raised (KeyError condition_key))
  /\ label_encoder adata NoEncoder condition_key = Raised (KeyError condition_key)
  /\ (forall d : gmap string Z, d <> ∅ ->
        label_encoder adata (DictEncoder d) condition_key = Raised (KeyError condition_key))
  /\ label_encoder adata (DictEncoder ∅) condition_key
     = Returned (reshape_column (replicate (n_obs adata) 0), DictEncoder ∅).
Proof.
  intros Hmiss. split; [|split; [|split]].
  - intros le. unfold label_encoder, obs_get. rewrite Hmiss. reflexivity.
  - unfold label_encoder, obs_get. rewrite Hmiss. reflexivity.
  - intros d Hd. unfold label_encoder.
    destruct (map_to_list d) as [|[c l] rest] eqn:E.
    + apply map_to_list_empty_iff in E. contradiction.
    + cbn [encode_items]. unfold obs_get. rewrite Hmiss. reflexivity.
  - unfold label_encoder. rewrite map_to_list_empty. reflexivity.
Qed.

Lemma label_encoder_missing_key_witness :
  label_encoder three_cells NoEncoder "batch"%string = Raised (KeyError "batch").
Proof.
  destruct (label_encoder_missing_key three_cells "batch"%string eq_refl) as (_ & H & _).
  exact H.
Defined.

(** ** train_test_split: any fraction, and the metadata of the rows *)

Lemma subset_rows_fields (adata : AnnData) (idx : list nat) :
  Forall (fun i => (i < n_obs adata)%nat) idx ->
  subset_rows adata idx
  = Returned {| X := take_rows (X adata) idx;
                obs := subset_column idx <$> obs adata;
                var_names := var_names adata;
                var := var adata |}.
Proof. intros H. unfold subset_rows. rewrite (decide_True _ _ H). reflexivity. Qed.


Lemma shuffled_indices_in_range (rs : RandomState) (n : nat) :
  (shuffle rs (seq 0 n)).1 ≡ₚ seq 0 n
  /\ Forall (fun i => (i < n)%nat) (shuffle rs (seq 0 n)).1.
Proof.
  pose proof (shuffle_Permutation rs (seq 0 n)) as Hperm.
  split; [exact Hperm|]. rewrite Hperm. apply Forall_forall. intros i Hi.
  apply list_elem_of_In, in_seq in Hi. lia.
Qed.

(** The two subsets that the call returns, wherever the cut falls. *)
Lemma train_test_split_subsets (rs : RandomState) (adata : AnnData) (train_frac : float)
    (cut : Z) :
  py_int (float_of_nat (n_obs adata) * train_frac)%float = Returned cut ->
  let shuffled := (shuffle rs (seq 0 (n_obs adata))).1 in
  let k := slice_bound shuffled cut in
  exists train_data valid_data,
    train_test_split rs adata train_frac
    = (Returned (train_data, valid_data), (shuffle rs (seq 0 (n_obs adata))).2)
    /\ subset_rows adata (take k shuffled) = Returned train_data
    /\ subset_rows adata (drop k shuffled) = Returned valid_data
    /\ Forall (fun i => (i < n_obs adata)%nat) (take k shuffled)
    /\ Forall (fun i => (i < n_obs adata)%nat) (drop k shuffled).
Proof.
  intros Hcut shuffled k.
  destruct (shuffled_indices_in_range rs (n_obs adata)) as [_ Hall].
  assert (Htrain : Forall (fun i => (i < n_obs adata)%nat) (take k shuffled))
    by (apply Forall_take; exact Hall).
  assert (Htest : Forall (fun i => (i < n_obs adata)%nat) (drop k shuffled))
    by (apply Forall_drop; exact Hall).
  pose proof (subset_rows_fields adata _ Htrain) as E1.
  pose proof (subset_rows_fields adata _ Htest) as E2.
  do 2 eexists. split; [|split; [exact E1 | split; [exact E2 | split; assumption]]].
  unfold train_test_split, slice_to, slice_from. rewrite Hcut.
  subst k shuffled.
  destruct (shuffle rs (seq 0 (n_obs adata))) as [indices rs'].
  cbn [fst snd] in *. rewrite E1, E2. reflexivity.
Qed.

(** [int] returns on the finite doubles and raises on the others. *)
Lemma py_int_total (x : float) :
  (exists k, py_int x = Returned k) \/ (exists e, py_int x = Raised e).
Proof.
  unfold py_int. destruct (Prim2SF x); [left | right | right | left]; eexists; reflexivity.
Qed.

(** X8. For any double as the fraction, also a negative one, one above 1,
    an infinite one or NaN: either the product of the number of rows and the
    fraction is a finite double, and the call returns two subsets whose rows
    are the rows of the matrix, each taken once, in the shuffled order; or
    it is not, and the call raises the error of [int] before it draws
    anything from the random generator. *)
Theorem train_test_split_any_fraction (rs : RandomState) (adata : AnnData)
    (train_frac : float) :
  match py_int (float_of_nat (n_obs adata) * train_frac)%float with
  | Returned cut =>
      exists train_data valid_data train_idx test_idx,
        train_test_split rs adata train_frac
        = (Returned (train_data, valid_data), (shuffle rs (seq 0 (n_obs adata))).2)
        /\ train_idx = slice_to (shuffle rs (seq 0 (n_obs adata))).1 cut
        /\ test_idx = slice_from (shuffle rs (seq 0 (n_obs adata))).1 cut
        /\ train_idx ++ test_idx = (shuffle rs (seq 0 (n_obs adata))).1
        /\ train_idx ++ test_idx ≡ₚ seq 0 (n_obs adata)
        /\ X train_data = take_rows (X adata) train_idx
        /\ X valid_data = take_rows (X adata) test_idx
        /\ X train_data ++ X valid_data ≡ₚ X adata
        /\ (n_obs train_data + n_obs valid_data = n_obs adata)%nat
  | Raised e =>
      train_test_split rs adata train_frac = (Raised e, rs)
      /\ (e = OverflowError \/ e = ValueError)
  | StillRunning => False
  end.
Proof.
  destruct (py_int _) as [cut|e|] eqn:Hcut.
  - destruct (train_test_split_subsets rs adata train_frac cut Hcut)
      as (train_data & valid_data & Hrun & Htrain & Hvalid & Hin1 & Hin2).
    destruct (shuffled_indices_in_range rs (n_obs adata)) as [Hperm _].
    set (shuffled := (shuffle rs (seq 0 (n_obs adata))).1) in *.
    set (k := slice_bound shuffled _) in *.
    rewrite (subset_rows_fields adata _ Hin1) in Htrain. injection Htrain as <-.
    rewrite (subset_rows_fields adata _ Hin2) in Hvalid. injection Hvalid as <-.
    do 2 eexists. exists (take k shuffled), (drop k shuffled).
    split; [exact Hrun|]. split; [reflexivity|]. split; [reflexivity|].
    rewrite take_drop. split; [reflexivity|].
    split; [exact Hperm|]. cbn [X]. split; [reflexivity|]. split; [reflexivity|].
    assert (HX : take_rows (X adata) (take k shuffled) ++ take_rows (X adata) (drop k shuffled)
                 ≡ₚ X adata).
    { unfold take_rows. rewrite <- omap_app, take_drop.
      apply take_rows_Permutation. exact Hperm. }
    split; [exact HX|].
    unfold n_obs. cbn [X]. rewrite <- length_app. apply Permutation_length. exact HX.
  - split.
    + unfold train_test_split. rewrite Hcut. reflexivity.
    + unfold py_int in Hcut. destruct (Prim2SF _); try discriminate;
        injection Hcut as <-; auto.
  - unfold py_int in Hcut. destruct (Prim2SF _); discriminate.
Qed.



Lemma train_test_split_sizes (rs : RandomState) (adata : AnnData) (train_frac : float)
    (cut : Z) :
  py_int (float_of_nat (n_obs adata) * train_frac)%float = Returned cut ->
  let n := n_obs adata in
  let k := slice_bound (shuffle rs (seq 0 n)).1 cut in
  exists train_data valid_data,
    train_test_split rs adata train_frac
    = (Returned (train_data, valid_data), (shuffle rs (seq 0 n)).2)
    /\ n_obs train_data = (k `min` n)%nat
    /\ n_obs valid_data = (n - k)%nat.
Proof.
  intros Hcut n k.
  destruct (train_test_split_subsets rs adata train_frac cut Hcut)
    as (train_data & valid_data & Hrun & Htrain & Hvalid & Hin1 & Hin2).
  destruct (shuffled_indices_in_range rs n) as [Hperm _].
  fold n k in Htrain, Hvalid, Hin1, Hin2, Hrun.
  assert (Hlen : length (shuffle rs (seq 0 n)).1 = n).
  { rewrite Hperm. apply length_seq. }
  rewrite (subset_rows_fields adata _ Hin1) in Htrain. injection Htrain as <-.
  rewrite (subset_rows_fields adata _ Hin2) in Hvalid. injection Hvalid as <-.
  do 2 eexists. split; [exact Hrun|]. split.
  - unfold n_obs at 1. cbn [X].
    rewrite take_rows_length by exact Hin1. rewrite length_take. lia.
  - unfold n_obs at 1. cbn [X].
    rewrite take_rows_length by exact Hin2. rewrite length_drop. lia.
Qed.

(** X10. When [int (n * train_frac)] is the number of rows or more, nothing
    is left for validation: all rows are training rows. *)
Theorem train_test_split_no_validation (rs : RandomState) (adata : AnnData)
    (train_frac : float) (cut : Z) :
  py_int (float_of_nat (n_obs adata) * train_frac)%float = Returned cut ->
  Z.of_nat (n_obs adata) <= cut ->
  exists train_data valid_data,
    train_test_split rs adata train_frac
    = (Returned (train_data, valid_data), (shuffle rs (seq 0 (n_obs adata))).2)
    /\ n_obs train_data = n_obs adata
    /\ n_obs valid_data = 0%nat.
Proof.
  intros Hcut Hall.
  destruct (train_test_split_sizes rs adata train_frac cut Hcut)
    as (train_data & valid_data & Hrun & Htrain & Hvalid).
  exists train_data, valid_data. split; [exact Hrun|].
  unfold slice_bound in Htrain, Hvalid.
  destruct (Z.ltb_spec cut 0); lia.
Qed.

Lemma train_test_split_no_validation_witness :
  exists train_data valid_data rs',
    train_test_split sample_random_state hundred_cells 0x1.8p+0%float
    = (Returned (train_data, valid_data), rs')
    /\ n_obs train_data = 100%nat /\ n_obs valid_data = 0%nat.
Proof.
  destruct (train_test_split_no_validation sample_random_state hundred_cells 0x1.8p+0%float 150)
    as (train_data & valid_data & Hrun & Htrain & Hvalid).
  - vm_compute. reflexivity.
  - vm_compute. discriminate.
  - exists train_data, valid_data, (shuffle sample_random_state (seq 0 (n_obs hundred_cells))).2.
    split; [exact Hrun|]. split; [exact Htrain | exact Hvalid].
Defined.

(** X11. When [int (n * train_frac)] is 0, the training subset is empty and
    all rows go to validation. The product itself, not the fraction,
    decides: three rows at the double [1/3] give the product 1. *)
Theorem train_test_split_no_training (rs : RandomState) (adata : AnnData)
    (train_frac : float) :
  py_int (float_of_nat (n_obs adata) * train_frac)%float = Returned 0 ->
  exists train_data valid_data,
    train_test_split rs adata train_frac
    = (Returned (train_data, valid_data), (shuffle rs (seq 0 (n_obs adata))).2)
    /\ n_obs train_data = 0%nat
    /\ n_obs valid_data = n_obs adata.
Proof.
  intros Hcut.
  destruct (train_test_split_sizes rs adata train_frac 0 Hcut)
    as (train_data & valid_data & Hrun & Htrain & Hvalid).
  exists train_data, valid_data. split; [exact Hrun|].
  unfold slice_bound in Htrain, Hvalid. cbn in Htrain, Hvalid. lia.
Qed.

Lemma train_test_split_no_training_witness :
  exists train_data valid_data rs',
    train_test_split sample_random_state three_cells double_0_29
    = (Returned (train_data, valid_data), rs')
    /\ n_obs train_data = 0%nat /\ n_obs valid_data = 3%nat.
Proof.
  destruct (train_test_split_no_training sample_random_state three_cells double_0_29)
    as (train_data & valid_data & Hrun & Htrain & Hvalid).
  - vm_compute. reflexivity.
  - exists train_data, valid_data, (shuffle sample_random_state (seq 0 (n_obs three_cells))).2.
    split; [exact Hrun|]. split; [exact Htrain | exact Hvalid].
Defined.

(** Three rows at the double nearest to one third: the product is rounded
    to 1, and one row is a training row. *)
Example train_test_split_one_third :
  py_int (float_of_nat 3 * 0x1.5555555555555p-2)%float = Returned 1.
Proof. vm_compute. reflexivity. Qed.

(** ** hvg_batch: which genes are selected *)

(** The table as a series: every gene with its dispersion. *)
Lemma dispersions_where_split table (L : Z) :
  dispersions_where (fun n => n > L - 1) table
  ≡ₚ dispersions_where (fun n => n > L) table ++ dispersions_where (fun n => n = L) table.
Proof.
  unfold dispersions_where. rewrite <- fmap_app. apply fmap_Permutation.
  induction table as [|r t IH]; [reflexivity|].
  rewrite !filter_cons. repeat case_decide; try lia; simpl.
  - rewrite IH. reflexivity.
  - rewrite IH. apply Permutation_middle.
  - exact IH.
Qed.

Lemma dispersions_where_complement (P : Z -> Prop) `{!forall n, Decision (P n)} table :
  dispersions_where P table ++ dispersions_where (fun n => ~ P n) table
  ≡ₚ (fun r => (gene r, dispersions_norm r)) <$> table.
Proof.
  unfold dispersions_where. rewrite <- fmap_app. apply fmap_Permutation.
  apply (filter_app_complement (fun r => P (highly_variable_nbatches r))).
Qed.

Lemma index_app (s1 s2 : Series) : index (s1 ++ s2) = index s1 ++ index s2.
Proof. unfold index. apply fmap_app. Qed.

Lemma index_Permutation (s1 s2 : Series) : s1 ≡ₚ s2 -> index s1 ≡ₚ index s2.
Proof. unfold index. apply fmap_Permutation. Qed.

(** What the loop has selected when it returns: all the genes above some
    level [L], and the first genes of level [L] in the order of their
    dispersions. *)
Lemma fill_up_selection table n_batches target_genes :
  forall (fuel : nat) (st st' : fill_state),
  enough st = false ->
  hvg st ≡ₚ index (dispersions_where (fun n => n > n_batches - not_n_batches st) table) ->
  Z.of_nat (length (hvg st)) <= target_genes ->
  fill_up fuel table n_batches target_genes st = Returned st' ->
  exists L : Z,
    L <= n_batches - not_n_batches st
    /\ 0 <= target_genes - Z.of_nat (above table L) <= Z.of_nat (exactly table L)
    /\ hvg st'
       ≡ₚ index (dispersions_where (fun n => n > L) table)
          ++ index (take (Z.to_nat (target_genes - Z.of_nat (above table L)))
                      (sort_values (dispersions_where (fun n => n = L) table))).
Proof.
  induction fuel as [|fuel IH]; intros st st' Hrun Hinv Hle Hret.
  - simpl in Hret. rewrite Hrun in Hret. discriminate.
  - cbn [fill_up] in Hret. rewrite Hrun in Hret.
    assert (Hlen : length (hvg st) = above table (n_batches - not_n_batches st)).
    { unfold above. rewrite <- length_index. apply Permutation_length. exact Hinv. }
    unfold fill_step in Hret. fold (exactly table (n_batches - not_n_batches st)) in Hret.
    destruct (Z.ltb_spec (Z.of_nat (exactly table (n_batches - not_n_batches st)))
                (target_genes - Z.of_nat (length (hvg st)))) as [Hfew|Hmany].
    + apply IH in Hret; cbn [hvg not_n_batches enough] in *.
      * destruct Hret as (L & HL & Hk & Hsel). exists L. split; [lia|]. split; assumption.
      * reflexivity.
      * replace (n_batches - (not_n_batches st + 1))
          with (n_batches - not_n_batches st - 1) by lia.
        rewrite (index_Permutation _ _
                   (dispersions_where_split table (n_batches - not_n_batches st))).
        rewrite index_app, Hinv. reflexivity.
      * rewrite length_app, length_index. fold (exactly table (n_batches - not_n_batches st)).
        lia.
    + rewrite fill_up_enough in Hret by reflexivity. injection Hret as <-.
      cbn [hvg]. exists (n_batches - not_n_batches st).
      split; [lia|]. split; [lia|].
      rewrite slice_to_index by lia. rewrite Hlen.
      apply Permutation_app; [exact Hinv | reflexivity].
Qed.

(** The genes returned are the genes of some of the rows of the table. *)
Lemma select_hvg_rows (fuel : nat) table n_batches target_genes genes :
  0 <= target_genes ->
  select_hvg fuel table n_batches target_genes = Returned genes ->
  exists selected others : Series,
    genes ≡ₚ index selected
    /\ selected ++ others ≡ₚ (fun r => (gene r, dispersions_norm r)) <$> table.
Proof.
  intros Hpos Hret. unfold select_hvg in Hret.
  destruct (target_genes <? _) eqn:Hcmp.
  - injection Hret as <-. rewrite slice_to_index by exact Hpos.
    set (top := dispersions_where (fun n => n > n_batches - 1) table).
    exists (take (Z.to_nat target_genes) (sort_values top)),
      (drop (Z.to_nat target_genes) (sort_values top)
       ++ dispersions_where (fun n => ~ n > n_batches - 1) table).
    split; [reflexivity|].
    rewrite (assoc_L (++)), take_drop, sort_values_Permutation.
    apply dispersions_where_complement.
  - apply Z.ltb_ge in Hcmp.
    destruct (fill_up fuel table n_batches target_genes _) as [st| |] eqn:Hloop;
      try discriminate.
    cbn in Hret. injection Hret as <-.
    apply fill_up_selection in Hloop; cbn [hvg not_n_batches enough].
    + destruct Hloop as (L & _ & _ & Hsel).
      set (pool := sort_values (dispersions_where (fun n => n = L) table)) in *.
      set (k := Z.to_nat (target_genes - Z.of_nat (above table L))) in *.
      exists (dispersions_where (fun n => n > L) table ++ take k pool),
        (drop k pool ++ dispersions_where (fun n => ~ n > L - 1) table).
      split; [rewrite index_app; exact Hsel|].
      rewrite <- (assoc_L (++)), (assoc_L (++) (take k pool)), take_drop.
      unfold pool. rewrite sort_values_Permutation, (assoc_L (++)).
      rewrite <- dispersions_where_split. apply dispersions_where_complement.
    + reflexivity.
    + apply index_Permutation, sort_values_Permutation.
    + rewrite length_index. exact Hcmp.
Qed.

(** X12. The genes that the selection returns are genes of the table, and
    when the gene names are distinct no gene is returned twice. *)
Theorem select_hvg_genes_of_table table n_batches target_genes :
  0 <= target_genes <= Z.of_nat (length table) ->
  exists genes,
    (forall extra : nat,
       select_hvg (enough_fuel table n_batches + extra) table n_batches target_genes
       = Returned genes)
    /\ (forall g, g ∈ genes -> g ∈ gene <$> table)
    /\ (NoDup (gene <$> table) -> NoDup genes).
Proof.
  intros Htarget.
  destruct (select_hvg_length table n_batches target_genes Htarget) as (genes & Hrun & _).
  exists genes. split; [exact Hrun|].
  destruct (select_hvg_rows _ table n_batches target_genes genes (proj1 Htarget) (Hrun O))
    as (selected & others & Hsel & Hall).
  assert (Hnames : index selected ++ index others ≡ₚ gene <$> table).
  { rewrite <- index_app, (index_Permutation _ _ Hall). unfold index.
    rewrite <- list_fmap_compose. reflexivity. }
  split.
  - intros g Hg. rewrite <- Hnames, <- Hsel. apply elem_of_app. left. exact Hg.
  - intros Hnd. rewrite <- Hnames in Hnd. apply NoDup_app in Hnd as (Hnd & _ & _).
    rewrite Hsel. exact Hnd.
Qed.

Lemma select_hvg_genes_of_table_witness :
  exists genes,
    select_hvg (enough_fuel sample_table 3) sample_table 3 12 = Returned genes
    /\ NoDup genes.
Proof.
  destruct (select_hvg_genes_of_table sample_table 3 12) as (genes & Hrun & _ & Hnd).
  - vm_compute. split; discriminate.
  - exists genes. split.
    + specialize (Hrun O). rewrite Nat.add_0_r in Hrun. exact Hrun.
    + apply Hnd. apply (bool_decide_unpack _). vm_compute. exact I.
Defined.

(** X13. Genes flagged in more batches come first. When no gene is flagged
    in more than [n_batches] batches, there is a level [L] such that the
    selection holds every gene flagged in more than [L] batches, no gene
    flagged in fewer than [L], and of the genes flagged in exactly [L]
    batches only ones whose dispersion is at least that of each one left
    out. *)
Theorem select_hvg_priority table n_batches target_genes :
  0 <= target_genes <= Z.of_nat (length table) ->
  Forall (fun r => highly_variable_nbatches r <= n_batches) table ->
  exists genes (L : Z) (chosen rest : Series),
    (forall extra : nat,
       select_hvg (enough_fuel table n_batches + extra) table n_batches target_genes
       = Returned genes)
    /\ L <= n_batches
    /\ genes ≡ₚ index (dispersions_where (fun n => n > L) table) ++ index chosen
    /\ chosen ++ rest ≡ₚ dispersions_where (fun n => n = L) table
    /\ Z.of_nat (length chosen) = target_genes - Z.of_nat (above table L)
    /\ forall p q, p ∈ chosen -> q ∈ rest -> comes_before p q.
Proof.
  intros Htarget Hrange.
  destruct (select_hvg_length table n_batches target_genes Htarget) as (genes & Hrun & _).
  exists genes.
  assert (Hchar : exists L : Z,
             L <= n_batches
             /\ 0 <= target_genes - Z.of_nat (above table L) <= Z.of_nat (exactly table L)
             /\ genes
                ≡ₚ index (dispersions_where (fun n => n > L) table)
                   ++ index (take (Z.to_nat (target_genes - Z.of_nat (above table L)))
                               (sort_values (dispersions_where (fun n => n = L) table)))).
  { specialize (Hrun O). unfold select_hvg in Hrun.
    pose proof (dispersions_where_top table n_batches Hrange) as Htop.
    assert (Hnone : dispersions_where (fun n => n > n_batches) table = []).
    { unfold dispersions_where.
      rewrite (filter_ext_Forall _ (fun _ => False)).
      - clear. induction table as [|r t IH]; [reflexivity|].
        rewrite filter_cons_False by tauto. exact IH.
      - eapply Forall_impl; [exact Hrange|]. intros r Hr. simpl in *. split; [lia|tauto]. }
    destruct (target_genes <? _) eqn:Hcmp.
    - apply Z.ltb_lt in Hcmp. rewrite length_sort_values, Htop in Hcmp.
      fold (exactly table n_batches) in Hcmp.
      injection Hrun as <-. exists n_batches.
      assert (Habove : above table n_batches = 0%nat)
        by (unfold above; rewrite Hnone; reflexivity).
      rewrite Habove, Hnone. change (Z.of_nat 0) with 0. rewrite Z.sub_0_r.
      split; [lia|]. split; [lia|].
      rewrite slice_to_index by lia. rewrite Htop. reflexivity.
    - apply Z.ltb_ge in Hcmp.
      destruct (fill_up _ table n_batches target_genes _) as [st| |] eqn:Hloop;
        try discriminate.
      cbn in Hrun. injection Hrun as <-.
      apply fill_up_selection in Hloop; cbn [hvg not_n_batches enough].
      + destruct Hloop as (L & HL & Hk & Hsel). cbn [not_n_batches] in HL.
        exists L. split; [lia|]. split; assumption.
      + reflexivity.
      + apply index_Permutation, sort_values_Permutation.
      + rewrite length_index. exact Hcmp. }
  destruct Hchar as (L & HL & Hk & Hsel).
  set (pool := sort_values (dispersions_where (fun n => n = L) table)) in *.
  set (k := Z.to_nat (target_genes - Z.of_nat (above table L))) in *.
  exists L, (take k pool), (drop k pool).
  split; [exact Hrun|]. split; [exact HL|]. split; [exact Hsel|].
  split; [rewrite take_drop; apply sort_values_Permutation|]. split.
  - rewrite length_take. unfold pool. rewrite length_sort_values.
    fold (exactly table L). lia.
  - intros p q. apply sort_values_take_drop.
Qed.

Lemma select_hvg_priority_witness :
  exists genes (L : Z) (chosen : Series),
    select_hvg (enough_fuel sample_table 3) sample_table 3 12 = Returned genes
    /\ L <= 3
    /\ genes ≡ₚ index (dispersions_where (fun n => n > L) sample_table) ++ index chosen.
Proof.
  destruct (select_hvg_priority sample_table 3 12)
    as (genes & L & chosen & rest & Hrun & HL & Hsel & _).
  - vm_compute. split; discriminate.
  - apply (bool_decide_unpack _). vm_compute. exact I.
  - exists genes, L, chosen. split; [|split; [exact HL | exact Hsel]].
    specialize (Hrun O). rewrite Nat.add_0_r in Hrun. exact Hrun.
Defined.

(** X14. When the genes flagged in all batches are at least
    [target_genes], the selection is [target_genes] of them, listed by
    non-increasing dispersion, each of a dispersion at least that of every
    such gene left out; which of several genes of one dispersion is taken
    is left open. The test of the code is strict; with exactly
    [target_genes] such genes the loop runs once and adds nothing. *)
Theorem select_hvg_top_level (fuel : nat) table n_batches target_genes :
  0 <= target_genes <= Z.of_nat (above table (n_batches - 1)) ->
  exists chosen rest : Series,
    select_hvg (S fuel) table n_batches target_genes = Returned (index chosen)
    /\ chosen ++ rest ≡ₚ dispersions_where (fun n => n > n_batches - 1) table
    /\ Z.of_nat (length chosen) = target_genes
    /\ StronglySorted comes_before chosen
    /\ forall p q, p ∈ chosen -> q ∈ rest -> comes_before p q.
Proof.
  intros [Hpos Hle].
  set (top := sort_values (dispersions_where (fun n => n > n_batches - 1) table)).
  assert (Hlen : length top = above table (n_batches - 1))
    by (unfold top; rewrite length_sort_values; reflexivity).
  exists (take (Z.to_nat target_genes) top), (drop (Z.to_nat target_genes) top).
  split; [|split; [|split; [|split]]].
  - unfold select_hvg. fold top. rewrite Hlen.
    destruct (Z.ltb_spec target_genes (Z.of_nat (above table (n_batches - 1)))) as [Hlt|Hge].
    + rewrite slice_to_index by exact Hpos. reflexivity.
    + assert (Heq : target_genes = Z.of_nat (above table (n_batches - 1))) by lia.
      cbn [fill_up enough]. unfold fill_step at 1. cbn [hvg not_n_batches enough].
      rewrite length_index, Hlen.
      destruct (Z.ltb_spec (Z.of_nat (length (dispersions_where
                  (fun n => n = n_batches - 1) table)))
                  (target_genes - Z.of_nat (above table (n_batches - 1)))); [lia|].
      rewrite fill_up_enough by reflexivity. cbn.
      replace (target_genes - Z.of_nat (above table (n_batches - 1))) with 0 by lia.
      rewrite slice_to_index by lia. cbn [Z.to_nat take]. cbn [index fmap list_fmap].
      rewrite app_nil_r. rewrite take_ge; [reflexivity|]. lia.
  - rewrite take_drop. apply sort_values_Permutation.
  - rewrite length_take. lia.
  - pose proof (sort_values_sorted (dispersions_where (fun n => n > n_batches - 1) table))
      as Hs.
    fold top in Hs. rewrite <- (take_drop (Z.to_nat target_genes) top) in Hs.
    apply StronglySorted_app_1_l in Hs. exact Hs.
  - intros p q. apply sort_values_take_drop.
Qed.

Lemma select_hvg_top_level_witness :
  exists chosen : Series,
    select_hvg 1 sample_table 3 5 = Returned (index chosen)
    /\ Z.of_nat (length chosen) = 5.
Proof.
  destruct (select_hvg_top_level O sample_table 3 5) as (chosen & rest & Hrun & _ & Hlen & _).
  - vm_compute. split; discriminate.
  - exists chosen. split; [exact Hrun | exact Hlen].
Defined.

(** ** hvg_batch: errors, the unbounded loop, and [adataOut=True] *)



Section hvg_batch_more.
Variable highly_variable_genes :
  AnnData -> string -> Z -> Z -> string -> gmap string var_column.

(** The call with [adataOut=True], in terms of the selection. *)
Lemma hvg_batch_adataOut (fuel : nat) (σ : gmap positive AnnData) (adata : positive)
    (a : AnnData) (batch_key : string) (col : obs_column)
    (ds : list (option Q)) (ns : list Z) (target_genes : Z) (flavor : string) (n_bins : Z) :
  σ !! adata = Some a ->
  obs a !! batch_key = Some col ->
  highly_variable_genes a flavor target_genes n_bins batch_key !! "dispersions_norm"%string
    = Some (FloatColumn ds) ->
  highly_variable_genes a flavor target_genes n_bins batch_key
    !! "highly_variable_nbatches"%string = Some (IntColumn ns) ->
  let a' := with_statistics (highly_variable_genes a flavor target_genes n_bins batch_key) a in
  let σ' := <[adata := a']> σ in
  hvg_batch highly_variable_genes fuel σ adata (Some batch_key) target_genes flavor
    n_bins true
  = match select_hvg fuel (zip_rows (var_names a) ds ns)
            (Z.of_nat (length (categories col))) target_genes with
    | Returned hvg =>
        match subset_vars a' hvg with
        | Returned sub => (Returned (Subset (fresh (dom σ'))), <[fresh (dom σ') := sub]> σ')
        | Raised e => (Raised e, σ')
        | StillRunning => (StillRunning, σ')
        end
    | Raised e => (Raised e, σ')
    | StillRunning => (StillRunning, σ')
    end.
Proof.
  intros Hσ Hobs Hds Hns a' σ'. unfold hvg_batch. rewrite Hσ, Hobs.
  unfold sc_pp_highly_variable_genes. rewrite Hσ, lookup_insert_eq.
  fold (with_statistics (highly_variable_genes a flavor target_genes n_bins batch_key) a). fold a' σ'.
  unfold var_table. unfold a' at 1 2 3. unfold with_statistics at 1 2 3.
  cbn [var var_names].
  rewrite (lookup_union_Some_l _ _ _ _ Hds), (lookup_union_Some_l _ _ _ _ Hns).
  cbn. destruct (select_hvg _ _ _ _) as [hvg| |]; reflexivity.
Qed.

(** X15. With fewer genes than [target_genes] the call never returns, in
    either mode: the loop keeps lowering the level, below 0, and no level
    fills the quota. *)
Theorem hvg_batch_never_returns (fuel : nat) (σ : gmap positive AnnData) (adata : positive)
    (a : AnnData) (batch_key : string) (col : obs_column)
    (ds : list (option Q)) (ns : list Z) (target_genes : Z) (flavor : string) (n_bins : Z)
    (adataOut : bool) :
  σ !! adata = Some a ->
  obs a !! batch_key = Some col ->
  highly_variable_genes a flavor target_genes n_bins batch_key !! "dispersions_norm"%string
    = Some (FloatColumn ds) ->
  highly_variable_genes a flavor target_genes n_bins batch_key
    !! "highly_variable_nbatches"%string = Some (IntColumn ns) ->
  length ds = n_vars a ->
  length ns = n_vars a ->
  Z.of_nat (n_vars a) < target_genes ->
  (hvg_batch highly_variable_genes fuel σ adata (Some batch_key) target_genes flavor
     n_bins adataOut).1 = StillRunning.
Proof.
  intros Hσ Hobs Hds Hns Hlds Hlns Hsmall.
  assert (Hdiv : select_hvg fuel (zip_rows (var_names a) ds ns)
                   (Z.of_nat (length (categories col))) target_genes = StillRunning).
  { apply select_hvg_diverges. rewrite length_zip_rows by assumption. exact Hsmall. }
  destruct adataOut.
  - rewrite (hvg_batch_adataOut fuel σ adata a batch_key col ds ns target_genes flavor
               n_bins Hσ Hobs Hds Hns).
    rewrite Hdiv. reflexivity.
  - destruct (hvg_batch_gene_list highly_variable_genes fuel σ adata a batch_key col ds ns
                target_genes flavor n_bins Hσ Hobs Hds Hns) as (σ' & Hcall).
    rewrite Hcall, Hdiv. reflexivity.
Qed.

(** X16. The batch column is read before anything is computed: with
    [batch_key=None] (the default) or a key that is not a column of
    [adata.obs] the call raises [KeyError], in either mode, and the matrix
    that was given is as before. *)
Theorem hvg_batch_missing_batch_key (fuel : nat) (σ : gmap positive AnnData)
    (adata : positive) (a : AnnData) (batch_key : option string) (target_genes : Z)
    (flavor : string) (n_bins : Z) (adataOut : bool) :
  σ !! adata = Some a ->
  match batch_key with
  | None => True
  | Some key => obs a !! key = None
  end ->
  let out := hvg_batch highly_variable_genes fuel σ adata batch_key target_genes flavor
               n_bins adataOut in
  out.1 = Raised (KeyError (default "None"%string batch_key))
  /\ out.2 !! adata = Some a.
Proof.
  intros Hσ Hkey. cbv zeta. unfold hvg_batch. rewrite Hσ.
  pose proof (copy_fresh σ a) as Hfresh. unfold copy in *. cbn [fst] in Hfresh.
  assert (Hne : fresh (dom σ) <> adata) by congruence.
  destruct adataOut, batch_key as [key|]; cbn [fst snd default]; rewrite ?Hkey;
    cbn [fst snd]; (split; [reflexivity|]);
    rewrite ?lookup_insert_ne by exact Hne; exact Hσ.
Qed.


End hvg_batch_more.

Lemma hvg_batch_never_returns_witness :
  (hvg_batch sample_statistics 50 sample_store 1%positive (Some "batch"%string)
     17 "cell_ranger"%string 20 true).1 = StillRunning.
Proof.
  apply (hvg_batch_never_returns sample_statistics 50 sample_store 1%positive sixteen_genes
           "batch"%string batch_column sample_dispersions sample_nbatches 17
           "cell_ranger"%string 20 true); reflexivity.
Defined.

Lemma hvg_batch_missing_batch_key_witness :
  (hvg_batch sample_statistics 5 sample_store 1%positive None
     12 "cell_ranger"%string 20 true).1 = Raised (KeyError "None").
Proof.
  destruct (hvg_batch_missing_batch_key sample_statistics 5 sample_store 1%positive
              sixteen_genes None 12 "cell_ranger"%string 20 true eq_refl I) as [H _].
  exact H.
Defined.


(** * Further properties of [surgeon/models/_utils.py] *)

(** ** Finite sums *)

Lemma sum_upto_ext (n : nat) (f g : nat -> R) :
  (forall k, (k < n)%nat -> f k = g k) -> sum_upto n f = sum_upto n g.
Proof.
  induction n as [|n IH]; intros H; [reflexivity|].
  cbn [sum_upto]. rewrite IH by (intros k Hk; apply H; lia).
  rewrite H by lia. reflexivity.
Qed.

Lemma sum_upto_plus (n : nat) (f g : nat -> R) :
  sum_upto n (fun k => f k + g k)%R = (sum_upto n f + sum_upto n g)%R.
Proof.
  induction n as [|n IH]; cbn [sum_upto]; [ring|]. rewrite IH. ring.
Qed.

Lemma sum_upto_swap (n m : nat) (f : nat -> nat -> R) :
  sum_upto n (fun i => sum_upto m (fun j => f i j))
  = sum_upto m (fun j => sum_upto n (fun i => f i j)).
Proof.
  induction n as [|n IH]; cbn [sum_upto].
  - symmetry. apply sum_upto_zero. reflexivity.
  - rewrite IH, <- sum_upto_plus. reflexivity.
Qed.

Lemma sum_list_bounds (l : list R) :
  Forall (fun v => 0 < v <= 1)%R l -> (0 <= sum_list l <= INR (length l))%R
  /\ (l <> [] -> 0 < sum_list l)%R.
Proof.
  induction 1 as [|v l Hv _ IH]; [cbn; split; [lra | congruence]|].
  cbn [sum_list foldr length]. fold (sum_list l). rewrite S_INR.
  destruct IH as [IH _]. split; [lra | intros _; lra].
Qed.

(** ** squared_distance and the kernels on tensors of one width *)

Lemma row_distance_nonneg (x y : Tensor) (d i j : nat) : (0 <= row_distance x y d i j)%R.
Proof. unfold row_distance. apply sum_upto_nonneg. intros k. apply Rle_0_sqr. Qed.

Lemma row_distance_sym (x y : Tensor) (d i j : nat) :
  row_distance x y d i j = row_distance y x d j i.
Proof. unfold row_distance. apply sum_upto_ext. intros k _. apply Rsqr_neg_minus. Qed.

Lemma row_distance_same (x : Tensor) (d i : nat) : row_distance x x d i i = 0%R.
Proof.
  unfold row_distance. apply sum_upto_zero. intros k _.
  unfold Rminus. rewrite Rplus_opp_r. apply Rsqr_0.
Qed.

Lemma squared_distance_same_width (x y : Tensor) :
  shape1 x = shape1 y ->
  squared_distance x y
  = Returned {| shape0 := shape0 x; shape1 := shape0 y;
                entry := row_distance x y (shape1 y) |}.
Proof.
  intros H. unfold squared_distance, row_distance. rewrite H, broadcast_dim_same.
  reflexivity.
Qed.

(** X18. On two tensors of one width [squared_distance] returns the
    matrix of squared distances between their rows: it has one row per row
    of [x] and one column per row of [y], no entry is negative, exchanging
    the arguments transposes it, and a tensor is at distance 0 from
    itself. *)
Theorem squared_distance_metric (x y : Tensor) :
  shape1 x = shape1 y ->
  exists D D',
    squared_distance x y = Returned D
    /\ squared_distance y x = Returned D'
    /\ shape0 D = shape0 x /\ shape1 D = shape0 y
    /\ (forall i j, 0 <= entry D i j)%R
    /\ (forall i j, entry D i j = entry D' j i)
    /\ (forall i j, (forall k, (k < shape1 x)%nat -> entry x i k = entry y j k) ->
          entry D i j = 0%R).
Proof.
  intros H.
  rewrite (squared_distance_same_width x y H), (squared_distance_same_width y x (eq_sym H)).
  do 2 eexists. split; [reflexivity|]. split; [reflexivity|]. cbn [shape0 shape1 entry].
  split; [reflexivity|]. split; [reflexivity|]. split; [|split].
  - intros i j. apply row_distance_nonneg.
  - intros i j. rewrite H. apply row_distance_sym.
  - intros i j Hrow. unfold row_distance. apply sum_upto_zero. intros k Hk.
    rewrite Hrow.
    + unfold Rminus. rewrite Rplus_opp_r. apply Rsqr_0.
    + unfold broadcast_index. case_decide; lia.
Qed.

Lemma squared_distance_metric_witness :
  exists D, squared_distance sample_tensor sample_tensor = Returned D
            /\ entry D 1 1 = 0%R.
Proof.
  destruct (squared_distance_metric sample_tensor sample_tensor eq_refl)
    as (D & D' & Hrun & _ & _ & _ & _ & _ & Hzero).
  exists D. split; [exact Hrun|]. apply Hzero. reflexivity.
Defined.

Lemma compute_kernel_same_width (x y : Tensor) (kernel : string) (kw : kwargs) :
  shape1 x = shape1 y ->
  supported_kernel kernel ->
  exists f : Tensor -> Tensor -> nat -> nat -> R,
    compute_kernel x y kernel kw
    = Returned (Some {| shape0 := shape0 x; shape1 := shape0 y; entry := f x y |})
    /\ compute_kernel y x kernel kw
       = Returned (Some {| shape0 := shape0 y; shape1 := shape0 x; entry := f y x |})
    /\ compute_kernel x x kernel kw
       = Returned (Some {| shape0 := shape0 x; shape1 := shape0 x; entry := f x x |})
    /\ compute_kernel y y kernel kw
       = Returned (Some {| shape0 := shape0 y; shape1 := shape0 y; entry := f y y |})
    /\ forall i j, f x y i j = f y x j i.
Proof.
  intros H [-> | [-> | ->]].
  - exists rbf_entry. unfold compute_kernel. cbn.
    rewrite !decide_True by (rewrite ?H; reflexivity).
    repeat (split; [reflexivity|]).
    intros i j. unfold rbf_entry. rewrite H.
    rewrite (sum_upto_ext _ _ (fun k => Rsqr (entry y j k - entry x i k)));
      [reflexivity|].
    intros k _. apply Rsqr_neg_minus.
  - exists (raphy_entry (default [] (scales_kw kw))). unfold compute_kernel. cbn.
    rewrite (squared_distance_same_width x y H),
      (squared_distance_same_width y x (eq_sym H)),
      (squared_distance_same_width x x eq_refl),
      (squared_distance_same_width y y eq_refl).
    cbn. repeat (split; [reflexivity|]).
    intros i j. unfold raphy_entry. rewrite H, (row_distance_sym x y). reflexivity.
  - exists multi_scale_entry. unfold compute_kernel. cbn.
    rewrite (squared_distance_same_width x y H),
      (squared_distance_same_width y x (eq_sym H)),
      (squared_distance_same_width x x eq_refl),
      (squared_distance_same_width y y eq_refl).
    cbn. repeat (split; [reflexivity|]).
    intros i j. unfold multi_scale_entry. rewrite H, (row_distance_sym x y). reflexivity.
Qed.

(** X19. For every supported kernel and two tensors of one width, the
    kernel matrix has one row per row of [x] and one column per row of [y],
    and exchanging the arguments transposes it. *)
Theorem compute_kernel_transpose (x y : Tensor) (kernel : string) (kw : kwargs) :
  shape1 x = shape1 y ->
  supported_kernel kernel ->
  exists t t',
    compute_kernel x y kernel kw = Returned (Some t)
    /\ compute_kernel y x kernel kw = Returned (Some t')
    /\ shape0 t = shape0 x /\ shape1 t = shape0 y
    /\ shape0 t' = shape0 y /\ shape1 t' = shape0 x
    /\ forall i j, entry t i j = entry t' j i.
Proof.
  intros H Hk.
  destruct (compute_kernel_same_width x y kernel kw H Hk) as (f & Hxy & Hyx & _ & _ & Hsym).
  do 2 eexists. split; [exact Hxy|]. split; [exact Hyx|]. cbn [shape0 shape1 entry].
  repeat (split; [reflexivity|]). exact Hsym.
Qed.

Lemma compute_kernel_transpose_witness :
  exists t t',
    compute_kernel sample_tensor sample_tensor "multi-scale-rbf" {| scales_kw := None |}
    = Returned (Some t)
    /\ compute_kernel sample_tensor sample_tensor "multi-scale-rbf" {| scales_kw := None |}
       = Returned (Some t')
    /\ entry t 0 1 = entry t' 1 0.
Proof.
  destruct (compute_kernel_transpose sample_tensor sample_tensor "multi-scale-rbf"
              {| scales_kw := None |} eq_refl)
    as (t & t' & H1 & H2 & _ & _ & _ & _ & Hsym).
  - right. right. reflexivity.
  - exists t, t'. split; [exact H1|]. split; [exact H2 | apply Hsym].
Defined.

Lemma K_mean_transpose (n m : nat) (f g : nat -> nat -> R) :
  (forall i j, f i j = g j i) ->
  K_mean {| shape0 := n; shape1 := m; entry := f |}
  = K_mean {| shape0 := m; shape1 := n; entry := g |}.
Proof.
  intros Hsym. unfold K_mean. cbn [shape0 shape1 entry].
  rewrite (Nat.mul_comm m n). destruct (decide _) as [_|_]; [reflexivity|].
  do 2 f_equal. rewrite sum_upto_swap. apply sum_upto_ext. intros j _.
  apply sum_upto_ext. intros i _. apply Hsym.
Qed.

(** X20. The discrepancy does not depend on the order of its two
    arguments: on tensors of one width, [compute_mmd(x, y)] and
    [compute_mmd(y, x)] return the same value. *)
Theorem compute_mmd_symmetric (x y : Tensor) (kernel : string) (kw : kwargs) :
  shape1 x = shape1 y ->
  supported_kernel kernel ->
  exists v : scalar,
    compute_mmd x y kernel kw = Returned v
    /\ compute_mmd y x kernel kw = Returned v.
Proof.
  intros H Hk.
  destruct (compute_kernel_same_width x y kernel kw H Hk)
    as (f & Hxy & Hyx & Hxx & Hyy & Hsym).
  unfold compute_mmd. rewrite Hxx, Hyy, Hxy, Hyx. cbn.
  eexists. split; [reflexivity|]. f_equal.
  rewrite (K_mean_transpose (shape0 y) (shape0 x) (f y x) (f x y))
    by (intros i j; symmetry; apply Hsym).
  destruct (K_mean {| shape0 := shape0 x; shape1 := shape0 x; entry := f x x |}) as [a|],
    (K_mean {| shape0 := shape0 y; shape1 := shape0 y; entry := f y y |}) as [b|],
    (K_mean {| shape0 := shape0 x; shape1 := shape0 y; entry := f x y |}) as [c|];
    cbn; try reflexivity.
  f_equal. ring.
Qed.

Lemma compute_mmd_symmetric_witness :
  exists v : scalar,
    compute_mmd sample_tensor sample_tensor "raphy" {| scales_kw := Some [1%R] |} = Returned v.
Proof.
  destruct (compute_mmd_symmetric sample_tensor sample_tensor "raphy"
              {| scales_kw := Some [1%R] |} eq_refl) as (v & Hv & _).
  - right. left. reflexivity.
  - exists v. exact Hv.
Defined.

Lemma Rdiv_nonneg (a b : R) : (0 <= a)%R -> (0 <= b)%R -> (0 <= a / b)%R.
Proof.
  intros Ha [Hb | <-].
  - apply Rlt_le in Hb as Hb'. apply Rmult_le_pos; [exact Ha|].
    left. apply Rinv_0_lt_compat. exact Hb.
  - unfold Rdiv. rewrite Rinv_0, Rmult_0_r. lra.
Qed.

Lemma exp_nonpos (e : R) : (e <= 0)%R -> (0 < exp e <= 1)%R.
Proof.
  intros [Hlt | ->].
  - pose proof (exp_increasing _ _ Hlt) as H. rewrite exp_0 in H.
    pose proof (exp_pos e). lra.
  - rewrite exp_0. lra.
Qed.

Lemma exp_in_unit (e : R) : (e <= 0)%R -> (0 <= exp e <= 1)%R.
Proof. intros H. pose proof (exp_nonpos e H). lra. Qed.

(** X21. On tensors of one width, which is not 0, every entry of the
    ["rbf"] kernel matrix lies between 0 and 1, both included: the
    exponential of a large distance is 0 in floating-point arithmetic. *)
Theorem compute_kernel_rbf_range (x y : Tensor) (kw : kwargs) :
  shape1 x = shape1 y ->
  (0 < shape1 x)%nat ->
  exists t,
    compute_kernel x y "rbf" kw = Returned (Some t)
    /\ forall i j, (0 <= entry t i j <= 1)%R.
Proof.
  intros H _. unfold compute_kernel. cbn.
  destruct (decide (_ = _ :> nat)) as [_|Hne]; [|rewrite H in Hne; congruence].
  eexists. split; [reflexivity|]. intros i j. cbn [entry].
  apply exp_in_unit.
  assert (Hs : (0 <= sum_upto (shape1 x) (fun k => Rsqr (entry x i k - entry y j k)))%R)
    by (apply sum_upto_nonneg; intros k; apply Rle_0_sqr).
  pose proof (pos_INR (shape1 x)) as Hd.
  pose proof (Rdiv_nonneg _ _ (Rdiv_nonneg _ _ Hs Hd) Hd) as Hq.
  unfold Rdiv in *. rewrite <- Ropp_mult_distr_l. lra.
Qed.

Lemma compute_kernel_rbf_range_witness :
  exists t,
    compute_kernel sample_tensor sample_tensor "rbf" {| scales_kw := None |}
    = Returned (Some t)
    /\ (0 <= entry t 0 1 <= 1)%R.
Proof.
  destruct (compute_kernel_rbf_range sample_tensor sample_tensor {| scales_kw := None |}
              eq_refl) as (t & Hrun & Hrange).
  - cbn. lia.
  - exists t. split; [exact Hrun | apply Hrange].
Defined.

Lemma sigmas_positive : Forall (fun s => 0 < s)%R sigmas.
Proof. unfold sigmas. repeat constructor; lra. Qed.

Lemma sum_list_ones (l : list R) :
  Forall (fun v => v = 1%R) l -> sum_list l = INR (length l).
Proof.
  induction 1 as [|v l -> _ IH]; [reflexivity|].
  cbn [sum_list foldr length]. fold (sum_list l). rewrite IH, S_INR. ring.
Qed.

Lemma compute_kernel_multi_scale_value (x y : Tensor) (kw : kwargs) :
  shape1 x = shape1 y ->
  compute_kernel x y "multi-scale-rbf" kw
  = Returned (Some {| shape0 := shape0 x; shape1 := shape0 y;
                      entry := multi_scale_entry x y |}).
Proof.
  intros H. unfold compute_kernel. cbn [decide].
  repeat (destruct (decide (_ = _ :> string)) as [Heq|_]; [discriminate Heq|]).
  destruct (decide (_ = _ :> string)) as [_|Hne]; [|congruence].
  rewrite (squared_distance_same_width x y H). reflexivity.
Qed.

Lemma compute_kernel_raphy_value (x y : Tensor) (kw : kwargs) :
  shape1 x = shape1 y ->
  compute_kernel x y "raphy" kw
  = Returned (Some {| shape0 := shape0 x; shape1 := shape0 y;
                      entry := raphy_entry (default [] (scales_kw kw)) x y |}).
Proof.
  intros H. unfold compute_kernel.
  destruct (decide (_ = _ :> string)) as [Heq|_]; [discriminate Heq|].
  destruct (decide (_ = _ :> string)) as [_|Hne]; [|congruence].
  rewrite (squared_distance_same_width x y H). reflexivity.
Qed.

(** X22. Every entry of the ["multi-scale-rbf"] kernel matrix lies between
    0 and 1, both included (an exponential can be 0 in floating-point
    arithmetic), and the kernel of a tensor with itself is 1 on the
    diagonal. *)
Theorem compute_kernel_multi_scale_range (x y : Tensor) (kw : kwargs) :
  shape1 x = shape1 y ->
  exists t t',
    compute_kernel x y "multi-scale-rbf" kw = Returned (Some t)
    /\ compute_kernel x x "multi-scale-rbf" kw = Returned (Some t')
    /\ (forall i j, (0 <= entry t i j <= 1)%R)
    /\ (forall i, entry t' i i = 1%R).
Proof.
  intros H.
  rewrite (compute_kernel_multi_scale_value x y kw H),
    (compute_kernel_multi_scale_value x x kw eq_refl).
  do 2 eexists. split; [reflexivity|]. split; [reflexivity|]. cbn [entry].
  unfold multi_scale_entry.
  assert (Hlen : forall D : R,
             length ((fun b => exp (- (b * D))) <$> ((fun s => 1 / (2 * s))%R <$> sigmas))
             = length sigmas) by (intros D; rewrite !length_fmap; reflexivity).
  assert (H19 : (0 < INR (length sigmas))%R) by (apply lt_0_INR; unfold sigmas; cbn [length]; lia).
  split.
  - intros i j.
    pose proof (row_distance_nonneg x y (shape1 y) i j) as HD.
    set (D := row_distance x y (shape1 y) i j) in *.
    destruct (sum_list_bounds ((fun b => exp (- (b * D)))
                               <$> ((fun s => 1 / (2 * s))%R <$> sigmas))) as [Hb Hpos].
    { rewrite <- list_fmap_compose. apply Forall_fmap.
      eapply Forall_impl; [exact sigmas_positive|]. intros s Hs. cbn.
      apply exp_nonpos.
      assert (0 < 1 / (2 * s))%R by (apply Rdiv_lt_0_compat; lra).
      assert (0 <= 1 / (2 * s) * D)%R by (apply Rmult_le_pos; lra). lra. }
    rewrite Hlen in Hb. specialize (Hpos ltac:(discriminate)). split.
    + left. apply Rdiv_lt_0_compat; assumption.
    + apply (Rmult_le_reg_r (INR (length sigmas))); [exact H19|].
      unfold Rdiv. rewrite Rmult_assoc, Rinv_l by lra. lra.
  - intros i. rewrite row_distance_same, sum_list_ones.
    + rewrite Hlen. unfold Rdiv. apply Rinv_r. lra.
    + rewrite <- list_fmap_compose. apply Forall_fmap, Forall_forall. intros s _. cbn.
      rewrite Rmult_0_r, Ropp_0. apply exp_0.
Qed.

Lemma compute_kernel_multi_scale_range_witness :
  exists t',
    compute_kernel sample_tensor sample_tensor "multi-scale-rbf" {| scales_kw := None |}
    = Returned (Some t')
    /\ entry t' 1 1 = 1%R.
Proof.
  destruct (compute_kernel_multi_scale_range sample_tensor sample_tensor
              {| scales_kw := None |} eq_refl) as (t & t' & _ & Hrun & _ & Hdiag).
  exists t'. split; [exact Hrun | apply Hdiag].
Defined.

(** X23. Without scales (the default of [compute_kernel] is the empty
    list) the ["raphy"] kernel is 0 everywhere, and so is the discrepancy
    of any two tensors of one width that have a row each. *)
Theorem compute_mmd_raphy_no_scales (x y : Tensor) (kw : kwargs) :
  shape1 x = shape1 y ->
  default [] (scales_kw kw) = [] ->
  (0 < shape0 x)%nat ->
  (0 < shape0 y)%nat ->
  (exists t, compute_kernel x y "raphy" kw = Returned (Some t)
             /\ forall i j, entry t i j = 0%R)
  /\ compute_mmd x y "raphy" kw = Returned (Finite 0).
Proof.
  intros H Hscales Hx Hy. split.
  - rewrite (compute_kernel_raphy_value x y kw H), Hscales.
    eexists. split; [reflexivity|]. intros i j. reflexivity.
  - unfold compute_mmd.
    rewrite (compute_kernel_raphy_value x y kw H),
      (compute_kernel_raphy_value x x kw eq_refl),
      (compute_kernel_raphy_value y y kw eq_refl), Hscales.
    cbn [mbind outcome_bind K_mean_of].
    assert (Hzero : forall n m a b, (0 < n)%nat -> (0 < m)%nat ->
               K_mean {| shape0 := n; shape1 := m; entry := raphy_entry [] a b |} = Finite 0).
    { intros n m a b Hn Hm. unfold K_mean. cbn [shape0 shape1 entry].
      destruct (decide _) as [Hz|_]; [nia|]. f_equal.
      rewrite sum_upto_zero.
      - unfold Rdiv. apply Rmult_0_l.
      - intros i _. apply sum_upto_zero. intros j _. reflexivity. }
    rewrite !Hzero by assumption. cbn. do 2 f_equal. ring.
Qed.

Lemma compute_mmd_raphy_no_scales_witness :
  compute_mmd sample_tensor sample_tensor "raphy" {| scales_kw := None |}
  = Returned (Finite 0).
Proof.
  destruct (compute_mmd_raphy_no_scales sample_tensor sample_tensor {| scales_kw := None |}
              eq_refl eq_refl) as [_ H].
  - cbn. lia.
  - cbn. lia.
  - exact H.
Defined.

Lemma compute_mmd_unrecognized_witness :
  compute_mmd sample_tensor sample_tensor "linear" {| scales_kw := None |}
  = Raised AttributeError.
Proof.
  apply (compute_mmd_unrecognized sample_tensor sample_tensor "linear"
           {| scales_kw := None |}).
  intros [H | [H | H]]; discriminate H.
Defined.

Lemma broadcast_dim_mismatch (a b : nat) :
  a <> b -> a <> 1%nat -> b <> 1%nat -> broadcast_dim a b = None.
Proof.
  intros H Ha Hb. unfold broadcast_dim.
  rewrite decide_False by exact H. rewrite decide_False by exact Ha.
  rewrite decide_False by exact Hb. reflexivity.
Qed.

(** X24. Tensors whose widths differ, neither being 1, are refused: for
    every supported kernel [compute_mmd] raises, the second tensor having
    at least one row. *)
Theorem compute_mmd_width_mismatch (x y : Tensor) (kernel : string) (kw : kwargs) :
  supported_kernel kernel ->
  shape1 x <> shape1 y ->
  shape1 x <> 1%nat ->
  shape1 y <> 1%nat ->
  (0 < shape0 y)%nat ->
  compute_kernel x y kernel kw = Raised InvalidArgument
  /\ compute_mmd x y kernel kw = Raised InvalidArgument.
Proof.
  intros Hk Hne Hx Hy Hrows.
  assert (Hxy : compute_kernel x y kernel kw = Raised InvalidArgument).
  { destruct Hk as [-> | [-> | ->]]; unfold compute_kernel, squared_distance.
    - cbn. destruct (decide (_ = _ :> nat)) as [Heq|_]; [|reflexivity].
      exfalso. apply Hne. symmetry. nia.
    - destruct (decide (_ = _ :> string)) as [Heq|_]; [discriminate Heq|].
      destruct (decide (_ = _ :> string)) as [_|Hn]; [|congruence].
      rewrite (broadcast_dim_mismatch _ _ Hne Hx Hy). reflexivity.
    - repeat (destruct (decide (_ = _ :> string)) as [Heq|_]; [discriminate Heq|]).
      destruct (decide (_ = _ :> string)) as [_|Hn]; [|congruence].
      rewrite (broadcast_dim_mismatch _ _ Hne Hx Hy). reflexivity. }
  split; [exact Hxy|].
  destruct (compute_kernel_same_width x x kernel kw eq_refl Hk) as (f & Hxx & _).
  destruct (compute_kernel_same_width y y kernel kw eq_refl Hk) as (g & Hyy & _).
  unfold compute_mmd. rewrite Hxx, Hyy, Hxy. reflexivity.
Qed.

Lemma compute_mmd_width_mismatch_witness :
  compute_mmd sample_tensor wide_tensor "rbf" {| scales_kw := None |}
  = Raised InvalidArgument.
Proof.
  destruct (compute_mmd_width_mismatch sample_tensor wide_tensor "rbf"
              {| scales_kw := None |}) as [_ H]; cbn; try lia.
  - left. reflexivity.
  - exact H.
Defined.

(** ** sample_z on arguments of different shapes *)

(** X25. When the shape of [log_var] cannot be broadcast against the shape
    of [mu], [sample_z] raises instead of returning a sample. *)
Theorem sample_z_shape_mismatch (g : NormalSource) (mu log_var : Tensor) :
  broadcast_dim (shape0 log_var) (shape0 mu) = None
  \/ broadcast_dim (shape1 log_var) (shape1 mu) = None ->
  (sample_z g (mu, log_var)).1 = Raised InvalidArgument.
Proof.
  intros H. unfold sample_z, random_normal, elementwise, tensor_map.
  cbn [fst snd shape0 shape1 entry].
  destruct H as [-> | H]; [reflexivity|].
  rewrite H. destruct (broadcast_dim (shape0 log_var) (shape0 mu)); reflexivity.
Qed.

Lemma sample_z_shape_mismatch_witness :
  (sample_z sample_normal_source (sample_tensor, wide_tensor)).1 = Raised InvalidArgument.
Proof.
  apply (sample_z_shape_mismatch sample_normal_source sample_tensor wide_tensor).
  right. reflexivity.
Defined.

(** X26. A [log_var] of shape [[1, 1]] is broadcast: one log-variance
    scales the noise of every entry of [mu]. *)
Theorem sample_z_scalar_log_var (g : NormalSource) (mu log_var : Tensor) :
  shape0 log_var = 1%nat ->
  shape1 log_var = 1%nat ->
  exists z,
    sample_z g (mu, log_var) = (Returned z, (random_normal g (shape0 mu) (shape1 mu)).2)
    /\ shape0 z = shape0 mu /\ shape1 z = shape1 mu
    /\ forall i j, (i < shape0 mu)%nat -> (j < shape1 mu)%nat ->
         entry z i j
         = (entry mu i j
            + exp (entry log_var 0 0 / 2)
              * entry (random_normal g (shape0 mu) (shape1 mu)).1 i j)%R.
Proof.
  intros H0 H1. unfold sample_z, random_normal, elementwise, tensor_map.
  cbn [fst snd shape0 shape1 entry]. rewrite H0, H1.
  assert (Hb : forall d, broadcast_dim 1 d = Some d).
  { intros d. unfold broadcast_dim. destruct (decide (1%nat = d)) as [<-|]; [reflexivity|].
    rewrite decide_True by reflexivity. reflexivity. }
  rewrite !Hb. cbn [mbind outcome_bind shape0 shape1 entry]. rewrite !broadcast_dim_same.
  eexists. split; [reflexivity|]. cbn [shape0 shape1 entry].
  split; [reflexivity|]. split; [reflexivity|].
  intros i j Hi Hj. rewrite !(broadcast_index_lt (shape0 mu)), !(broadcast_index_lt (shape1 mu))
    by assumption.
  unfold broadcast_index. rewrite !decide_True by reflexivity. reflexivity.
Qed.

Lemma sample_z_scalar_log_var_witness :
  exists z,
    sample_z sample_normal_source
      (sample_tensor, {| shape0 := 1; shape1 := 1; entry := fun _ _ => 0%R |})
    = (Returned z, (random_normal sample_normal_source 2 2).2)
    /\ shape0 z = 2%nat.
Proof.
  destruct (sample_z_scalar_log_var sample_normal_source sample_tensor
              {| shape0 := 1; shape1 := 1; entry := fun _ _ => 0%R |} eq_refl eq_refl)
    as (z & Hrun & Hs & _).
  exists z. split; [exact Hrun | exact Hs].
Defined.

